(** * ИКО (plan-position indicator) imitator: the scene model of [iko.py]

    A shallow embedding of the numerical core of [src/iko.py] (class [ИКО]):
    the polar projection, the signature model (angular width, brightness,
    clutter brightness), the history trail, the coastline generator and the
    kinematics tick with its Stopped/Moving state machine; further the
    resize of the canvas, the handlers of the sliders, the draws of a
    random target, the drawing of the target, its trail, cursor and form
    and of the grid, and [EPRCalculator].

    Numbers.  Python's [float] is modelled by the real numbers [R] of the
    Standard Library: [math.sin], [math.cos], [math.sqrt], [math.atan2],
    [math.log10], [math.radians] and [math.degrees] are their mathematical
    counterparts, and no rounding, infinity or NaN is modelled.  Python's
    [int] is [Z].  A float division raises [ZeroDivisionError] on a zero
    divisor: where the divisor is the attribute [range_scale] the division
    is [Py.div], which can fail; the other divisors of the modelled code
    are non-zero constants or at least [1.0], and [/] is used for them.
    Where a property compares the results of two different computations
    (a round trip, a distance, a full turn), it is stated with a
    tolerance ([1e-9], or [1e-6] degrees of bearing) and for magnitudes
    of at most [10^4], which leaves room for the rounding of the doubles;
    over [R] the two sides are equal.

    Effects.  The attributes of [self] are the fields of the record [IKO];
    the tkinter variables ([info_var], [range_var], [bearing_var]) and the
    queue of [root.after] are fields of the same record.  Calls into the
    widget toolkit that can fail ([configure] of a label, the canvas
    operations of a redraw, [root.after]) are answered by an oracle
    ([Toolkit]): for each call and state it says whether the call raises.
    Writing a tkinter variable is a plain write.  Methods that call the
    toolkit live in a state-and-exception monad [M], in which a raised
    exception leaves the attributes written so far in place. *)

From Stdlib Require Import Reals Lra Lia List String ZArith Bool.
From Stdlib Require HexadecimalString.
Import ListNotations.
Open Scope R_scope.

(** ** Python arithmetic on reals *)

Module Py.

(** [math.radians] and [math.degrees]. *)
Definition radians (x : R) : R := x * (PI / 180).
Definition degrees (x : R) : R := x * (180 / PI).

(** [math.log10]. *)
Definition log10 (x : R) : R := ln x / ln 10.

(** [x / y] on floats: [None] stands for [ZeroDivisionError]. *)
Definition div (x y : R) : option R :=
  if Req_dec_T y 0 then None else Some (x / y).

(** [x % m] on floats: the remainder has the sign of the divisor. *)
Definition fmod (x m : R) : R := x - m * IZR (Zfloor (x / m)).

(** [int(x)] on a float truncates towards zero. *)
Definition int (x : R) : Z :=
  if Rle_dec 0 x then Zfloor x else Zceil x.

(** [math.atan2(y, x)], without signed zeros. *)
Definition atan2 (y x : R) : R :=
  if Rlt_dec 0 x then atan (y / x)
  else if Rlt_dec x 0 then
    if Rle_dec 0 y then atan (y / x) + PI else atan (y / x) - PI
  else
    if Rlt_dec 0 y then PI / 2
    else if Rlt_dec y 0 then - (PI / 2)
    else 0.

(** The builtins [max(a, b)] and [min(a, b)] on two floats are [Rmax a b]
    and [Rmin a b]; [abs] is [Rabs]. *)

End Py.

(** ** The bounded deque of [collections]

    [deque(maxlen=n)] holds at most [n] items; [appendleft] on a full deque
    discards the item at the right end, and on a deque of capacity 0 it
    discards the new item itself. *)

Module Deque.

Record deque (A : Type) : Type := mk {
  maxlen : nat;
  items : list A          (* left end first *)
}.
Arguments mk {A} _ _.
Arguments maxlen {A} _.
Arguments items {A} _.

Definition len {A} (d : deque A) : nat := List.length (items d).

Definition appendleft {A} (x : A) (d : deque A) : deque A :=
  mk (maxlen d) (firstn (maxlen d) (x :: items d)).

(** [deque(maxlen=n)]: [ValueError] when [n] is negative. *)
Definition new {A} (n : Z) : option (deque A) :=
  if (n <? 0)%Z then None else Some (mk (Z.to_nat n) []).

End Deque.

(** ** Exceptions, callbacks and the application record *)

(** An instance of a subclass of [Exception]; [exn_str] is [str(e)]. *)
Record Exn : Type := mkExn {
  exn_class : string;
  exn_str : string
}.

(** The callbacks handed to [root.after]. *)
Inductive Callback : Type :=
| CbSimulateMovement.

(** A fix of the history trail: [(bearing, range, epr)]. *)
Definition TargetFix : Type := (R * R * R)%type.

Record IKO : Type := mkIKO {
  canvas_size : Z;
  center : Z;
  range_scale : R;
  pixel_per_mile : R;
  target_range : R;
  target_bearing : R;
  aspect_angle : R;
  target_epr : R;
  target_length : R;
  target_width : R;
  target_history : Deque.deque TargetFix;
  trail_length : Z;
  coastline_points : list (R * R);
  target_moving : bool;
  target_course : R;
  target_speed : R;
  simulation_interval : Z;
  target_course_current : R;
  target_speed_current : R;
  updating_size : bool;
  (** [info_var]: the values written to the status [StringVar], newest
      first; its current value is the head. *)
  info_var : list string;
  range_var : R;
  bearing_var : R;
  (** the [(delay, callback)] pairs registered with [root.after], oldest
      first *)
  root_after : list (Z * Callback)
}.

Definition set_canvas_size (v : Z) (s : IKO) : IKO :=
  mkIKO v (center s) (range_scale s) (pixel_per_mile s)
    (target_range s) (target_bearing s) (aspect_angle s) (target_epr s)
    (target_length s) (target_width s) (target_history s) (trail_length s)
    (coastline_points s) (target_moving s) (target_course s) (target_speed s)
    (simulation_interval s) (target_course_current s) (target_speed_current s)
    (updating_size s) (info_var s) (range_var s) (bearing_var s) (root_after s).

Definition set_center (v : Z) (s : IKO) : IKO :=
  mkIKO (canvas_size s) v (range_scale s) (pixel_per_mile s)
    (target_range s) (target_bearing s) (aspect_angle s) (target_epr s)
    (target_length s) (target_width s) (target_history s) (trail_length s)
    (coastline_points s) (target_moving s) (target_course s) (target_speed s)
    (simulation_interval s) (target_course_current s) (target_speed_current s)
    (updating_size s) (info_var s) (range_var s) (bearing_var s) (root_after s).

Definition set_pixel_per_mile (v : R) (s : IKO) : IKO :=
  mkIKO (canvas_size s) (center s) (range_scale s) v
    (target_range s) (target_bearing s) (aspect_angle s) (target_epr s)
    (target_length s) (target_width s) (target_history s) (trail_length s)
    (coastline_points s) (target_moving s) (target_course s) (target_speed s)
    (simulation_interval s) (target_course_current s) (target_speed_current s)
    (updating_size s) (info_var s) (range_var s) (bearing_var s) (root_after s).

Definition set_target_range (v : R) (s : IKO) : IKO :=
  mkIKO (canvas_size s) (center s) (range_scale s) (pixel_per_mile s)
    v (target_bearing s) (aspect_angle s) (target_epr s)
    (target_length s) (target_width s) (target_history s) (trail_length s)
    (coastline_points s) (target_moving s) (target_course s) (target_speed s)
    (simulation_interval s) (target_course_current s) (target_speed_current s)
    (updating_size s) (info_var s) (range_var s) (bearing_var s) (root_after s).

Definition set_target_bearing (v : R) (s : IKO) : IKO :=
  mkIKO (canvas_size s) (center s) (range_scale s) (pixel_per_mile s)
    (target_range s) v (aspect_angle s) (target_epr s)
    (target_length s) (target_width s) (target_history s) (trail_length s)
    (coastline_points s) (target_moving s) (target_course s) (target_speed s)
    (simulation_interval s) (target_course_current s) (target_speed_current s)
    (updating_size s) (info_var s) (range_var s) (bearing_var s) (root_after s).

Definition set_target_epr (v : R) (s : IKO) : IKO :=
  mkIKO (canvas_size s) (center s) (range_scale s) (pixel_per_mile s)
    (target_range s) (target_bearing s) (aspect_angle s) v
    (target_length s) (target_width s) (target_history s) (trail_length s)
    (coastline_points s) (target_moving s) (target_course s) (target_speed s)
    (simulation_interval s) (target_course_current s) (target_speed_current s)
    (updating_size s) (info_var s) (range_var s) (bearing_var s) (root_after s).

Definition set_target_history (v : Deque.deque TargetFix) (s : IKO) : IKO :=
  mkIKO (canvas_size s) (center s) (range_scale s) (pixel_per_mile s)
    (target_range s) (target_bearing s) (aspect_angle s) (target_epr s)
    (target_length s) (target_width s) v (trail_length s)
    (coastline_points s) (target_moving s) (target_course s) (target_speed s)
    (simulation_interval s) (target_course_current s) (target_speed_current s)
    (updating_size s) (info_var s) (range_var s) (bearing_var s) (root_after s).

Definition set_trail_length (v : Z) (s : IKO) : IKO :=
  mkIKO (canvas_size s) (center s) (range_scale s) (pixel_per_mile s)
    (target_range s) (target_bearing s) (aspect_angle s) (target_epr s)
    (target_length s) (target_width s) (target_history s) v
    (coastline_points s) (target_moving s) (target_course s) (target_speed s)
    (simulation_interval s) (target_course_current s) (target_speed_current s)
    (updating_size s) (info_var s) (range_var s) (bearing_var s) (root_after s).

Definition set_coastline_points (v : list (R * R)) (s : IKO) : IKO :=
  mkIKO (canvas_size s) (center s) (range_scale s) (pixel_per_mile s)
    (target_range s) (target_bearing s) (aspect_angle s) (target_epr s)
    (target_length s) (target_width s) (target_history s) (trail_length s)
    v (target_moving s) (target_course s) (target_speed s)
    (simulation_interval s) (target_course_current s) (target_speed_current s)
    (updating_size s) (info_var s) (range_var s) (bearing_var s) (root_after s).

Definition set_target_moving (v : bool) (s : IKO) : IKO :=
  mkIKO (canvas_size s) (center s) (range_scale s) (pixel_per_mile s)
    (target_range s) (target_bearing s) (aspect_angle s) (target_epr s)
    (target_length s) (target_width s) (target_history s) (trail_length s)
    (coastline_points s) v (target_course s) (target_speed s)
    (simulation_interval s) (target_course_current s) (target_speed_current s)
    (updating_size s) (info_var s) (range_var s) (bearing_var s) (root_after s).

Definition set_target_course_current (v : R) (s : IKO) : IKO :=
  mkIKO (canvas_size s) (center s) (range_scale s) (pixel_per_mile s)
    (target_range s) (target_bearing s) (aspect_angle s) (target_epr s)
    (target_length s) (target_width s) (target_history s) (trail_length s)
    (coastline_points s) (target_moving s) (target_course s) (target_speed s)
    (simulation_interval s) v (target_speed_current s)
    (updating_size s) (info_var s) (range_var s) (bearing_var s) (root_after s).

Definition set_target_speed_current (v : R) (s : IKO) : IKO :=
  mkIKO (canvas_size s) (center s) (range_scale s) (pixel_per_mile s)
    (target_range s) (target_bearing s) (aspect_angle s) (target_epr s)
    (target_length s) (target_width s) (target_history s) (trail_length s)
    (coastline_points s) (target_moving s) (target_course s) (target_speed s)
    (simulation_interval s) (target_course_current s) v
    (updating_size s) (info_var s) (range_var s) (bearing_var s) (root_after s).

Definition set_updating_size (v : bool) (s : IKO) : IKO :=
  mkIKO (canvas_size s) (center s) (range_scale s) (pixel_per_mile s)
    (target_range s) (target_bearing s) (aspect_angle s) (target_epr s)
    (target_length s) (target_width s) (target_history s) (trail_length s)
    (coastline_points s) (target_moving s) (target_course s) (target_speed s)
    (simulation_interval s) (target_course_current s) (target_speed_current s)
    v (info_var s) (range_var s) (bearing_var s) (root_after s).

Definition set_info_var (v : list string) (s : IKO) : IKO :=
  mkIKO (canvas_size s) (center s) (range_scale s) (pixel_per_mile s)
    (target_range s) (target_bearing s) (aspect_angle s) (target_epr s)
    (target_length s) (target_width s) (target_history s) (trail_length s)
    (coastline_points s) (target_moving s) (target_course s) (target_speed s)
    (simulation_interval s) (target_course_current s) (target_speed_current s)
    (updating_size s) v (range_var s) (bearing_var s) (root_after s).

Definition set_range_var (v : R) (s : IKO) : IKO :=
  mkIKO (canvas_size s) (center s) (range_scale s) (pixel_per_mile s)
    (target_range s) (target_bearing s) (aspect_angle s) (target_epr s)
    (target_length s) (target_width s) (target_history s) (trail_length s)
    (coastline_points s) (target_moving s) (target_course s) (target_speed s)
    (simulation_interval s) (target_course_current s) (target_speed_current s)
    (updating_size s) (info_var s) v (bearing_var s) (root_after s).

Definition set_bearing_var (v : R) (s : IKO) : IKO :=
  mkIKO (canvas_size s) (center s) (range_scale s) (pixel_per_mile s)
    (target_range s) (target_bearing s) (aspect_angle s) (target_epr s)
    (target_length s) (target_width s) (target_history s) (trail_length s)
    (coastline_points s) (target_moving s) (target_course s) (target_speed s)
    (simulation_interval s) (target_course_current s) (target_speed_current s)
    (updating_size s) (info_var s) (range_var s) v (root_after s).

Definition set_root_after (v : list (Z * Callback)) (s : IKO) : IKO :=
  mkIKO (canvas_size s) (center s) (range_scale s) (pixel_per_mile s)
    (target_range s) (target_bearing s) (aspect_angle s) (target_epr s)
    (target_length s) (target_width s) (target_history s) (trail_length s)
    (coastline_points s) (target_moving s) (target_course s) (target_speed s)
    (simulation_interval s) (target_course_current s) (target_speed_current s)
    (updating_size s) (info_var s) (range_var s) (bearing_var s) v.

(** ** Geometry *)

(** [polar_to_cartesian(self, bearing, range_val)]. *)
Definition polar_to_cartesian (s : IKO) (bearing range_val : R) : R * R :=
  let angle_rad := Py.radians (90 - bearing) in
  let x := IZR (center s) + range_val * pixel_per_mile s * cos angle_rad in
  let y := IZR (center s) - range_val * pixel_per_mile s * sin angle_rad in
  (x, y).

(** ** Signature model *)

(** [calculate_angular_width(self)]. *)
Definition calculate_angular_width (s : IKO) : R :=
  let L := Rmax 0.1 (target_length s) in
  let B := Rmax 0.1 (target_width s) in
  let a_rad := Py.radians (aspect_angle s) in
  let sin_a := Rabs (sin a_rad) in
  let cos_a := Rabs (cos a_rad) in
  let projected_m := L * sin_a + B * cos_a in
  let distance_m := Rmax 1.0 (target_range s * 1852.0) in
  let angular_rad := projected_m / distance_m in
  let angular_deg := Py.degrees angular_rad in
  let angular_deg := angular_deg * 0.3 in
  let angular_deg := Rmax 0.18 (Rmin 3.5 angular_deg) in
  angular_deg.

(** [calculate_target_brightness(self)]. *)
Definition calculate_target_brightness (s : IKO) : option R :=
  let epr := Rmax 0.01 (target_epr s) in
  let epr_factor := Py.log10 (epr + 1) in
  let aspect :=
    Rmax 0.0 (Rmin 1.0 (Rabs (sin (Py.radians (aspect_angle s))))) in
  match Py.div (target_range s) (range_scale s) with
  | None => None
  | Some q =>
      let range_factor := 1.0 - q * 0.6 in
      let range_factor := Rmax 0.12 range_factor in
      let base := 0.12 in
      let brightness := base + epr_factor * aspect * range_factor * 1.5 in
      let brightness := Rmax 0.05 (Rmin 1.0 brightness) in
      Some brightness
  end.

(** [calculate_clutter_brightness(self, base_intensity, range_val)]. *)
Definition calculate_clutter_brightness
    (s : IKO) (base_intensity range_val : R) : option R :=
  let max_clutter_brightness := 0.8 in
  match Py.div range_val (range_scale s) with
  | None => None
  | Some q =>
      let range_factor := 1.0 - q * 0.45 in
      let brightness :=
        base_intensity * max_clutter_brightness * Rmax 0.2 range_factor in
      Some (Rmax 0.05 (Rmin max_clutter_brightness brightness))
  end.

(** ** History trail *)

(** [add_to_history(self)]. *)
Definition add_to_history (s : IKO) : IKO :=
  let fix_now := (target_bearing s, target_range s, target_epr s) in
  match Deque.items (target_history s) with
  | [] =>
      set_target_history (Deque.appendleft fix_now (target_history s)) s
  | (last_bearing, last_range, last_epr) :: _ =>
      if Rgt_dec (Rabs (target_bearing s - last_bearing)) 1.0 then
        set_target_history (Deque.appendleft fix_now (target_history s)) s
      else if Rgt_dec (Rabs (target_range s - last_range)) 0.1 then
        set_target_history (Deque.appendleft fix_now (target_history s)) s
      else s
  end.

(** ** The random source

    [random.random()] returns the next element of a stream of draws;
    [random.uniform(a, b)] is [a + (b - a) * random.random()], as in
    CPython's [random.py]. *)

Module Random.

Record state : Type := mk {
  stream : nat -> R;
  cursor : nat
}.

Definition Rand (A : Type) : Type := state -> A * state.

Definition ret {A} (a : A) : Rand A := fun g => (a, g).

Definition bind {A B} (m : Rand A) (k : A -> Rand B) : Rand B :=
  fun g => let (a, g') := m g in k a g'.

Definition random : Rand R :=
  fun g => (stream g (cursor g), mk (stream g) (S (cursor g))).

Definition uniform (a b : R) : Rand R :=
  bind random (fun u => ret (a + (b - a) * u)).

End Random.

(** ** Coastline generator *)

Definition segments : nat := 40.

(** The body of the first loop of [generate_coastline], for the indices
    [idx] that remain; [points] is the list built so far. *)
Fixpoint coastline_loop (s : IKO) (base_dir : R) (idx : list nat)
    (points : list (R * R)) : Random.Rand (list (R * R)) :=
  match idx with
  | [] => Random.ret points
  | i :: idx' =>
      let base_distance := range_scale s * 0.75 in
      let angle := (base_dir - 60) + (INR i / (INR segments - 1)) * 120 in
      Random.bind (Random.uniform (-10) 10) (fun u =>
      let base_range :=
        base_distance
        + sin (Py.radians (INR i * 8 + u)) * (range_scale s * 0.15) in
      Random.bind
        (Random.uniform (- range_scale s * 0.05) (range_scale s * 0.05))
        (fun jitter =>
      let r :=
        Rmax (range_scale s * 0.5)
             (Rmin (range_scale s - 1.0) (base_range + jitter)) in
      coastline_loop s base_dir idx' (points ++ [(Py.fmod angle 360, r)])))
  end.

(** One pass of the inner loop [for j in range(-2, 3)] at index [i]:
    the pair [(acc, cnt)] after the loop. *)
Definition smooth_window (points : list (R * R)) (i : nat) : R * Z :=
  fold_left
    (fun (st : R * Z) (j : Z) =>
       let ni :=
         Z.to_nat ((Z.of_nat i + j) mod Z.of_nat (List.length points)) in
       (fst st + snd (nth ni points (0, 0)), (snd st + 1)%Z))
    [-2; -1; 0; 1; 2]%Z (0.0, 0%Z).

(** The smoothing loop of [generate_coastline]. *)
Definition smooth_coastline (points : list (R * R)) : list (R * R) :=
  map (fun i =>
         let (acc, cnt) := smooth_window points i in
         let avg := acc / IZR cnt in
         (fst (nth i points (0, 0)), avg))
      (seq 0 (List.length points)).

(** [generate_coastline(self)]. *)
Definition generate_coastline (s : IKO) : Random.Rand (list (R * R)) :=
  Random.bind (Random.uniform (-20) 20) (fun u =>
  let base_dir := Py.fmod (target_bearing s + 120 + u) 360 in
  Random.bind (coastline_loop s base_dir (seq 0 segments) []) (fun points =>
  Random.ret (smooth_coastline points))).

(** The list [points] that the first loop of [generate_coastline] has
    built when the smoothing starts. *)
Definition raw_coastline (s : IKO) (g : Random.state) : list (R * R) :=
  fst (Random.bind (Random.uniform (-20) 20) (fun u =>
       let base_dir := Py.fmod (target_bearing s + 120 + u) 360 in
       coastline_loop s base_dir (seq 0 segments) []) g).

(** ** The widget toolkit and the monad of methods *)

(** The toolkit calls of the modelled methods that can raise. *)
Inductive TkCall : Type :=
| RangeValueLabelConfigure
| BearingValueLabelConfigure
| TrailLengthLabelConfigure
| CanvasDeleteAll
| CanvasWinfo
| CanvasConfig
| CanvasDrawScene
| RootAfter.

(** What the toolkit answers: whether a call raises in a given state, and
    the size of the canvas container. *)
Record Toolkit : Type := mkToolkit {
  tk_raises : TkCall -> IKO -> option Exn;
  winfo_width : IKO -> Z;
  winfo_height : IKO -> Z
}.

(** The outcome of a method: it returns or raises, and in both cases
    leaves a state behind. *)
Inductive Result (A : Type) : Type :=
| Ok (a : A) (s : IKO)
| Raise (e : Exn) (s : IKO).
Arguments Ok {A} _ _.
Arguments Raise {A} _ _.

Definition state_of {A} (r : Result A) : IKO :=
  match r with
  | Ok _ s => s
  | Raise _ s => s
  end.

Definition raised {A} (r : Result A) : option Exn :=
  match r with
  | Ok _ _ => None
  | Raise e _ => Some e
  end.

Definition M (A : Type) : Type := IKO -> Result A.

Definition ret {A} (a : A) : M A := fun s => Ok a s.

Definition bind {A B} (m : M A) (k : A -> M B) : M B :=
  fun s =>
    match m s with
    | Ok a s' => k a s'
    | Raise e s' => Raise e s'
    end.

Definition raise {A} (e : Exn) : M A := fun s => Raise e s.

Definition gets {A} (f : IKO -> A) : M A := fun s => Ok (f s) s.

Definition modify (f : IKO -> IKO) : M unit := fun s => Ok tt (f s).

(** [try: body  except Exception as e: handler(e)]. *)
Definition try_except {A} (body : M A) (handler : Exn -> M A) : M A :=
  fun s =>
    match body s with
    | Ok a s' => Ok a s'
    | Raise e s' => handler e s'
    end.

(** [try: body  finally: fin]. *)
Definition try_finally {A} (body : M A) (fin : IKO -> IKO) : M A :=
  fun s =>
    match body s with
    | Ok a s' => Ok a (fin s')
    | Raise e s' => Raise e (fin s')
    end.

Declare Scope iko_scope.
Delimit Scope iko_scope with iko.
Notation "x <- m ;; k" := (bind m (fun x => k))
  (at level 61, m at next level, right associativity) : iko_scope.
Notation "m ;; k" := (bind m (fun _ => k))
  (at level 61, right associativity) : iko_scope.

(** The status messages. *)
Definition msg_started : string := "Имитация движения запущена".
Definition msg_stopped : string := "Имитация движения остановлена".
Definition msg_left_scope : string := "Цель вышла за пределы радара".
Definition msg_error (e : Exn) : string :=
  ("Ошибка имитации: " ++ exn_str e)%string.

Definition ValueError (msg : string) : Exn := mkExn "ValueError" msg.
Definition ZeroDivisionError : Exn :=
  mkExn "ZeroDivisionError" "float division by zero".

Section Methods.

Variable tk : Toolkit.

Local Open Scope iko_scope.

(** A toolkit call: raises what the oracle says, otherwise returns. *)
Definition tk_call (c : TkCall) : M unit :=
  fun s =>
    match tk_raises tk c s with
    | Some e => Raise e s
    | None => Ok tt s
    end.

(** [self.info_var.set(text)], [self.range_var.set(v)],
    [self.bearing_var.set(v)]: writes to toolkit variables. *)
Definition info_var_set (text : string) : M unit :=
  modify (fun s => set_info_var (text :: info_var s) s).
Definition range_var_set (v : R) : M unit := modify (set_range_var v).
Definition bearing_var_set (v : R) : M unit := modify (set_bearing_var v).

(** [self.root.after(ms, callback)]. *)
Definition root_after_call (ms : Z) (cb : Callback) : M unit :=
  tk_call RootAfter ;;
  modify (fun s => set_root_after (root_after s ++ [(ms, cb)]) s).

(** [update_canvas_size(self)]. *)
Definition update_canvas_size : M unit :=
  fun s =>
    if updating_size s then Ok tt s
    else
      (modify (set_updating_size true) ;;
       try_finally
         (tk_call CanvasWinfo ;;
          container_width <- gets (fun s => Z.max 100 (winfo_width tk s)) ;;
          container_height <- gets (fun s => Z.max 100 (winfo_height tk s)) ;;
          let new_size := Z.min container_width container_height in
          let new_size := Z.max 220 (new_size - 10) in
          old_size <- gets canvas_size ;;
          (if (new_size =? old_size)%Z then ret tt
           else modify (set_canvas_size new_size) ;; tk_call CanvasConfig) ;;
          modify (fun s => set_center (canvas_size s / 2)%Z s) ;;
          (fun s =>
             match Py.div (IZR (canvas_size s / 2 - 40)) (range_scale s) with
             | None => Raise ZeroDivisionError s
             | Some q => Ok tt (set_pixel_per_mile (Rmax 1.0 q) s)
             end))
         (set_updating_size false)) s.

(** [draw_radar_display(self)], once the canvas exists: the canvas is
    cleared, resized, and the scene is drawn by toolkit calls. *)
Definition draw_radar_display : M unit :=
  tk_call CanvasDeleteAll ;;
  update_canvas_size ;;
  tk_call CanvasDrawScene.

(** [on_trail_length_change(self, value)]. *)
Definition on_trail_length_change (value : R) : M unit :=
  modify (set_trail_length (Py.int value)) ;;
  (fun s =>
     match Deque.new (trail_length s) with
     | None => Raise (ValueError "maxlen must be non-negative") s
     | Some d => Ok tt (set_target_history d s)
     end) ;;
  tk_call TrailLengthLabelConfigure ;;
  draw_radar_display.

(** [stop_movement(self)]. *)
Definition stop_movement : M unit :=
  modify (set_target_moving false) ;;
  info_var_set msg_stopped.

(** The position computed by a tick of [simulate_movement] in state [s]:
    [(new_range, new_bearing)]. *)
Definition new_position (s : IKO) : R * R :=
  let time_step := IZR (simulation_interval s) / 1000.0 in
  let distance_moved := target_speed s * time_step / 3600.0 in
  let current_x := target_range s * sin (Py.radians (target_bearing s)) in
  let current_y := target_range s * cos (Py.radians (target_bearing s)) in
  let dx := distance_moved * sin (Py.radians (target_course s)) in
  let dy := distance_moved * cos (Py.radians (target_course s)) in
  let new_x := current_x + dx in
  let new_y := current_y + dy in
  let new_range := sqrt (new_x ^ 2 + new_y ^ 2) in
  let new_bearing := Py.fmod (Py.degrees (Py.atan2 new_x new_y)) 360 in
  (new_range, new_bearing).

(** The statements of [simulate_movement] that show the committed
    position: the slider variables and labels, the trail, the redraw. *)
Definition publish_position : M unit :=
  (fun s => range_var_set (target_range s) s) ;;
  (fun s => bearing_var_set (target_bearing s) s) ;;
  tk_call RangeValueLabelConfigure ;;
  tk_call BearingValueLabelConfigure ;;
  modify add_to_history ;;
  draw_radar_display.

(** The last statement of the [try] block: the next tick is scheduled
    while the session is Moving. *)
Definition schedule_next : M unit :=
  fun s =>
    if target_moving s then
      root_after_call (simulation_interval s) CbSimulateMovement s
    else Ok tt s.

(** The [try] block of [simulate_movement]. *)
Definition simulate_movement_try : M unit :=
  fun s =>
    (let (new_range, new_bearing) := new_position s in
     if Rge_dec new_range (range_scale s - 0.5) then
       info_var_set msg_left_scope ;;
       stop_movement
     else
       modify (set_target_range new_range) ;;
       modify (set_target_bearing new_bearing) ;;
       publish_position ;;
       schedule_next) s.

(** [simulate_movement(self)]. *)
Definition simulate_movement : M unit :=
  fun s =>
    if negb (target_moving s) then Ok tt s
    else
      try_except simulate_movement_try
        (fun e => info_var_set (msg_error e) ;; stop_movement) s.

(** [start_movement(self)]. *)
Definition start_movement : M unit :=
  fun s =>
    if negb (target_moving s) then
      (modify (set_target_moving true) ;;
       modify (fun s => set_target_course_current (target_course s) s) ;;
       modify (fun s => set_target_speed_current (target_speed s) s) ;;
       info_var_set msg_started ;;
       simulate_movement) s
    else Ok tt s.

End Methods.

(** ** The session at start-up *)

(** The attributes that [__init__] sets, before its first redraw, for a
    screen of the given size and a random source [g] (which the first
    coastline consumes). *)
Definition init (screen_width screen_height : Z) (g : Random.state) : IKO :=
  let canvas_size :=
    Z.min (Z.max 800 (screen_width - 300)) (Z.max 600 (screen_height - 150)) in
  let s0 :=
    mkIKO canvas_size (canvas_size / 2)%Z
      24.0 (IZR (canvas_size / 2 - 40) / 24.0)
      8.0 40.0 70.0 1.0 30.0 7.0
      (Deque.mk 30 []) 30%Z
      []
      false 45.0 10.0 500%Z 45.0 10.0
      false
      ["Готов к работе"%string] 8.0 40.0
      [] in
  set_coastline_points (fst (generate_coastline s0 g)) s0.

(** [__init__] with its last statement, the first redraw: the session
    that the constructor leaves once [setup_ui] has built the widgets. *)
Definition startup (tk : Toolkit) (screen_width screen_height : Z)
    (g : Random.state) : Result unit :=
  draw_radar_display tk (init screen_width screen_height g).

(** A toolkit in which no call raises, with a container of 800 x 800. *)
Definition quiet_toolkit : Toolkit :=
  mkToolkit (fun _ _ => None) (fun _ => 800%Z) (fun _ => 800%Z).

(** A random source that always draws [1/2]. *)
Definition middle_draws : Random.state := Random.mk (fun _ => 0.5) 0.

(** ** Recording fixes

    The callers of [add_to_history] ([on_bearing_change], [on_range_change],
    [on_epr_change], [random_target], [simulate_movement]) assign the
    target's position and then call it; [record_fix] is such an
    assignment followed by the call, [record_fixes] a sequence of them. *)

Definition record_fix (f : TargetFix) (s : IKO) : IKO :=
  let '(bearing, range_val, epr) := f in
  add_to_history
    (set_target_epr epr
       (set_target_range range_val (set_target_bearing bearing s))).

Definition record_fixes (fs : list TargetFix) (s : IKO) : IKO :=
  fold_left (fun s f => record_fix f s) fs s.

(** ** Further attribute writes *)

Definition set_aspect_angle (v : R) (s : IKO) : IKO :=
  mkIKO (canvas_size s) (center s) (range_scale s) (pixel_per_mile s)
    (target_range s) (target_bearing s) v (target_epr s)
    (target_length s) (target_width s) (target_history s) (trail_length s)
    (coastline_points s) (target_moving s) (target_course s) (target_speed s)
    (simulation_interval s) (target_course_current s) (target_speed_current s)
    (updating_size s) (info_var s) (range_var s) (bearing_var s) (root_after s).

Definition set_target_length (v : R) (s : IKO) : IKO :=
  mkIKO (canvas_size s) (center s) (range_scale s) (pixel_per_mile s)
    (target_range s) (target_bearing s) (aspect_angle s) (target_epr s)
    v (target_width s) (target_history s) (trail_length s)
    (coastline_points s) (target_moving s) (target_course s) (target_speed s)
    (simulation_interval s) (target_course_current s) (target_speed_current s)
    (updating_size s) (info_var s) (range_var s) (bearing_var s) (root_after s).

Definition set_target_width (v : R) (s : IKO) : IKO :=
  mkIKO (canvas_size s) (center s) (range_scale s) (pixel_per_mile s)
    (target_range s) (target_bearing s) (aspect_angle s) (target_epr s)
    (target_length s) v (target_history s) (trail_length s)
    (coastline_points s) (target_moving s) (target_course s) (target_speed s)
    (simulation_interval s) (target_course_current s) (target_speed_current s)
    (updating_size s) (info_var s) (range_var s) (bearing_var s) (root_after s).

(** ** Handlers of the sliders, of the window and of the coastline button

    A slider hands its value to the handler as a float, so [float(value)]
    is the value itself.  The [event] of a resize is not read. *)

Section Handlers.

Variable tk : Toolkit.

Local Open Scope iko_scope.

(** [on_bearing_change(self, value)]. *)
Definition on_bearing_change (value : R) : M unit :=
  modify (set_target_bearing value) ;;
  tk_call tk BearingValueLabelConfigure ;;
  modify add_to_history ;;
  draw_radar_display tk.

(** [on_range_change(self, value)]. *)
Definition on_range_change (value : R) : M unit :=
  modify (set_target_range value) ;;
  tk_call tk RangeValueLabelConfigure ;;
  modify add_to_history ;;
  draw_radar_display tk.

(** [on_length_change(self, value)] and [on_width_change(self, value)]. *)
Definition on_length_change (value : R) : M unit :=
  modify (set_target_length value) ;;
  draw_radar_display tk.

Definition on_width_change (value : R) : M unit :=
  modify (set_target_width value) ;;
  draw_radar_display tk.

(** [update_display(self)], [on_resize(self, event)] and
    [on_root_configure(self, event)]. *)
Definition update_display : M unit := draw_radar_display tk.
Definition on_resize : M unit := draw_radar_display tk.
Definition on_root_configure : M unit := draw_radar_display tk.

(** [new_coastline(self)], with the random source [g]: the outcome of the
    method and the random source that [generate_coastline] leaves (the
    draws that the clutter of the redraw then takes from it are not
    modelled). *)
Definition new_coastline (g : Random.state) (s : IKO)
    : Result unit * Random.state :=
  let (points, g') := generate_coastline s g in
  (draw_radar_display tk (set_coastline_points points s), g').

End Handlers.

(** ** A random target

    The six assignments at the head of [random_target] (the draws of
    bearing, range, EPR, length, width and aspect angle), in their order. *)
Definition random_target_draws (s : IKO) : Random.Rand IKO :=
  Random.bind (Random.uniform 0 360) (fun bearing =>
  let s := set_target_bearing bearing s in
  Random.bind (Random.uniform 2 (Rmax 3 (range_scale s - 2))) (fun range_val =>
  let s := set_target_range range_val s in
  Random.bind (Random.uniform 0.1 10.0) (fun epr =>
  let s := set_target_epr epr s in
  Random.bind (Random.uniform 5 200) (fun length =>
  let s := set_target_length length s in
  Random.bind (Random.uniform 2 50) (fun width =>
  let s := set_target_width width s in
  Random.bind (Random.uniform 0 90) (fun aspect =>
  Random.ret (set_aspect_angle aspect s))))))).

(** ** Radar cross-section from dimensions *)

Definition TypeError (msg : string) : Exn := mkExn "TypeError" msg.

Module EPRCalculator.

(** The dict [material_coefficients], in the order of the source. *)
Definition material_coefficients : list (string * R) :=
  [ ("металл"%string, 1.0); ("сталь"%string, 0.95);
    ("алюминий"%string, 0.9); ("железо"%string, 0.92);
    ("пластик"%string, 0.1); ("стеклопластик"%string, 0.08);
    ("дерево"%string, 0.05); ("резина"%string, 0.03);
    ("композит"%string, 0.07) ].

(** [d.get(key, default)]. *)
Fixpoint get (d : list (string * R)) (key : string) (default : R) : R :=
  match d with
  | [] => default
  | (k, v) :: d' => if String.eqb k key then v else get d' key default
  end.

(** [x ** (2/3)] on a float: a positive power of [0.0] is [0.0], and a
    fractional power of a negative float is a complex number, for which
    [None] stands. *)
Definition pow_two_thirds (x : R) : option R :=
  if Rlt_dec 0 x then Some (Rpower x (2 / 3))
  else if Rlt_dec x 0 then None
  else Some 0.

(** What [max(final_epr, 0.001)] raises when [final_epr] is complex. *)
Definition complex_comparison : Exn :=
  TypeError "'>' not supported between instances of 'float' and 'complex'".

(** [calculate_epr_from_dimensions(length, width, height_above_water,
    material, aspect_angle)]; [lower] is [str.lower].  With a complex
    [base_epr] the product [final_epr] is complex, and [max] raises
    [TypeError] when it compares it with [0.001]. *)
Definition calculate_epr_from_dimensions (lower : string -> string)
    (length width height_above_water : R) (material : string)
    (aspect_angle : R) : Exn + R :=
  match pow_two_thirds (length * width * Rmax 0.1 height_above_water) with
  | None => inl complex_comparison
  | Some base_epr =>
      let material_factor := get material_coefficients (lower material) 0.1 in
      let aspect_rad := Py.radians aspect_angle in
      let aspect_factor := Rabs (sin aspect_rad) in
      let form_factor := 0.7 in
      let final_epr :=
        base_epr * material_factor * (0.3 + 0.7 * aspect_factor)
        * form_factor in
      inr (Rmax final_epr 0.001)
  end.

End EPRCalculator.

(** ** The drawing of the target, its trail and the grid

    What the drawing methods hand to the canvas: for each call of
    [create_oval], [create_line] and [create_rectangle] the coordinates
    and the options [fill], [outline] and [width], where the call gives
    them. *)

Inductive CanvasItem : Type :=
| Oval (x0 y0 x1 y1 : R) (fill outline : option string) (width : option Z)
| Line (x0 y0 x1 y1 : R) (fill : option string) (width : option Z)
| Rectangle (x0 y0 x1 y1 : R) (fill outline : option string)
    (width : option Z).

(** The hexadecimal digits of a natural number, in lower case. *)
Definition hex (n : N) : string :=
  HexadecimalString.NilZero.string_of_uint (N.to_hex_uint n).

(** [f'{v:02x}']: a minus sign for a negative number, then the digits,
    padded with a zero to two characters. *)
Definition format_02x (v : Z) : string :=
  let digits := hex (Z.to_N (Z.abs v)) in
  if (v <? 0)%Z then ("-" ++ digits)%string
  else if (String.length digits <? 2)%nat then ("0" ++ digits)%string
  else digits.

(** [range(start, stop, step)] for a positive [step]. *)
Definition py_range (start stop step : Z) : list Z :=
  map (fun k => (start + Z.of_nat k * step)%Z)
      (seq 0 (Z.to_nat ((stop - start + step - 1) / step))).

(** [draw_grid_background(self)]. *)
Definition draw_grid_background (s : IKO) : list CanvasItem :=
  let w := canvas_size s in
  let step := Z.max 20 (w / 12) in
  flat_map
    (fun i =>
       let r := (i / 2)%Z in
       if (r <=? 0)%Z then []
       else
         let shade := (12 + (i / Z.max 1 step) * 3)%Z in
         let shade := Z.min 80 shade in
         let color :=
           ("#" ++ format_02x shade ++ format_02x shade
                ++ format_02x shade)%string in
         [Oval (IZR (center s - r)) (IZR (center s - r))
               (IZR (center s + r)) (IZR (center s + r))
               None (Some color) (Some 1%Z)])
    (py_range 0 w step).

(** [draw_target_trails(self)]. *)
Definition draw_target_trails (s : IKO) : list CanvasItem :=
  let history := Deque.items (target_history s) in
  let n := List.length history in
  if (n <? 2)%nat then []
  else
    map (fun i =>
           let '(bearing1, range1, epr1) := nth i history (0, 0, 0) in
           let '(bearing2, range2, epr2) := nth (i + 1) history (0, 0, 0) in
           let (x1, y1) := polar_to_cartesian s bearing1 range1 in
           let (x2, y2) := polar_to_cartesian s bearing2 range2 in
           let t := IZR (Z.of_nat i) / IZR (Z.max 1 (Z.of_nat n - 2)) in
           let fade := 0.3 + 0.7 * (1.0 - t) in
           let alpha := Py.int (255 * fade) in
           let color := ("#00ff" ++ format_02x alpha)%string in
           Line x1 y1 x2 y2 (Some color) (Some 2%Z))
        (seq 0 (n - 1))
    ++
    map (fun i =>
           let '(bearing, range_val, epr) := nth i history (0, 0, 0) in
           let t := IZR (Z.of_nat i) / IZR (Z.max 1 (Z.of_nat n - 1)) in
           let fade := 0.4 + 0.6 * (1.0 - t) in
           let base_size := 3 + epr * 0.5 in
           let size := Rmax 2 (base_size * fade) in
           let r := Py.int (100 + 155 * (1 - fade)) in
           let g := Py.int (200 + 55 * fade) in
           let b := Py.int (50 * (1 - fade)) in
           let color :=
             ("#" ++ format_02x r ++ format_02x g ++ format_02x b)%string in
           let (x, y) := polar_to_cartesian s bearing range_val in
           Oval (x - size) (y - size) (x + size) (y + size)
                (Some color) (Some ""%string) None)
        (seq 0 n).

(** [draw_target_cursor(self)]. *)
Definition draw_target_cursor (s : IKO) : list CanvasItem :=
  let (cx, cy) :=
    polar_to_cartesian s (target_bearing s) (target_range s) in
  let cursor_size := 12 in
  [ Rectangle (cx - cursor_size) (cy - cursor_size)
              (cx + cursor_size) (cy + cursor_size)
              None (Some "red"%string) (Some 2%Z);
    Line (cx - cursor_size) (cy - cursor_size)
         (cx + cursor_size) (cy + cursor_size)
         (Some "red"%string) (Some 1%Z);
    Line (cx - cursor_size) (cy + cursor_size)
         (cx + cursor_size) (cy - cursor_size)
         (Some "red"%string) (Some 1%Z) ].

(** The background rectangle of [draw_target_form]: to the right of the
    target if it fits, otherwise to the left. *)
Definition draw_target_form_box (s : IKO) : CanvasItem :=
  let (cx, cy) :=
    polar_to_cartesian s (target_bearing s) (target_range s) in
  let form_x := cx + 15 in
  let form_width := 110 in
  let form_x :=
    if Rgt_dec (form_x + form_width) (IZR (canvas_size s))
    then cx - form_width - 5
    else form_x in
  let form_y := cy - 35 in
  Rectangle form_x form_y (form_x + form_width) (form_y + 70)
            (Some "black"%string) (Some "white"%string) (Some 1%Z).

(** [draw_current_target(self)]; [None] when the brightness cannot be
    computed ([ZeroDivisionError]). *)
Definition draw_current_target (s : IKO) : option (list CanvasItem) :=
  let angular_width := calculate_angular_width s in
  match calculate_target_brightness s with
  | None => None
  | Some brightness =>
      let val := Py.int (255 * Rmax 0.15 (Rmin 1.0 brightness)) in
      let main_color :=
        ("#" ++ format_02x val ++ format_02x val ++ "00")%string in
      let (cx, cy) :=
        polar_to_cartesian s (target_bearing s) (target_range s) in
      let core_r := Z.max 3 (Py.int (3 + brightness * 4)) in
      let core :=
        Oval (cx - IZR core_r) (cy - IZR core_r)
             (cx + IZR core_r) (cy + IZR core_r)
             (Some main_color) (Some main_color) None in
      let halo_radius := (core_r + 2)%Z in
      let halo_color :=
        ("#" ++ format_02x (Z.min 255 (val + 50))
             ++ format_02x (Z.min 255 (val + 30)) ++ "00")%string in
      let halo :=
        Oval (cx - IZR halo_radius) (cy - IZR halo_radius)
             (cx + IZR halo_radius) (cy + IZR halo_radius)
             None (Some halo_color) (Some 1%Z) in
      if Rgt_dec (target_epr s) 2.0 then
        let outer_radius := (halo_radius + 3)%Z in
        let outer_color :=
          ("#" ++ format_02x (Z.min 255 (val + 20))
               ++ format_02x (Z.min 255 (val + 10)) ++ "00")%string in
        Some [core; halo;
              Oval (cx - IZR outer_radius) (cy - IZR outer_radius)
                   (cx + IZR outer_radius) (cy + IZR outer_radius)
                   None (Some outer_color) (Some 1%Z)]
      else Some [core; halo]
  end.

(** ** The words of the specification *)

Module Spec.

(** [clamp(x, lo, hi)]. *)
Definition clamp (x lo hi : R) : R := Rmin hi (Rmax lo x).

(** [clutterBrightness(base, range) =
     clamp(base·0.8·max(0.2, 1 − (range/rangeScale)·0.45), 0.05, 0.8)]. *)
Definition clutterBrightness (rangeScale base range : R) : R :=
  clamp (base * 0.8 * Rmax 0.2 (1 - (range / rangeScale) * 0.45)) 0.05 0.8.

(** Modelled from the spec: the inverse of the projection, which the
    source does not have.  The offset from the scope centre is scaled
    back to miles and turned into polar form the way the kinematics tick
    does it ([math.sqrt] of the squares, [math.atan2] in degrees modulo
    360); the result is [(bearing, range)]. *)
Definition inverse_project (s : IKO) (p : R * R) : R * R :=
  let dx := (fst p - IZR (center s)) / pixel_per_mile s in
  let dy := (IZR (center s) - snd p) / pixel_per_mile s in
  (Py.fmod (Py.degrees (Py.atan2 dx dy)) 360, sqrt (dx ^ 2 + dy ^ 2)).

(** The circular moving average over a window of 5 samples (2
    neighbours each side, wrapping): its value at index [i] of the
    samples [ranges]. *)
Definition moving_average (ranges : list R) (i : nat) : R :=
  let n := Z.of_nat (List.length ranges) in
  let sample (j : Z) :=
    nth (Z.to_nat ((Z.of_nat i + j) mod n)) ranges 0 in
  (sample (-2)%Z + sample (-1)%Z + sample 0%Z + sample 1%Z + sample 2%Z)
  / 5.

End Spec.

(** ** Sessions and toolkits of the examples *)

(** The session of the example: bearing 0, range 5, course 0, 3600
    knots, an interval of 1000 ms, a scope of 24 miles, Moving. *)
Definition northbound : IKO :=
  mkIKO 780 390 24.0 (350 / 24.0)
    5 0 70.0 1.0 30.0 7.0
    (Deque.mk 30 []) 30%Z
    []
    true 0 3600 1000%Z 0 3600
    false
    [msg_started] 5 0
    [].

(** A target on bearing 40 at [range_scale - 0.4 = 23.6] miles, heading
    straight out (course 40) at 10 knots, in the Moving state. *)
Definition outbound_at_edge : IKO :=
  mkIKO 780 390 24.0 (350 / 24.0)
    23.6 40.0 70.0 1.0 30.0 7.0
    (Deque.mk 30 []) 30%Z
    []
    true 40.0 10.0 500%Z 40.0 10.0
    false
    [msg_started] 23.6 40.0
    [].

(** The session [northbound] with three fixes on its trail. *)
Definition tracked : IKO :=
  set_target_history (Deque.mk 30 [(0, 5, 1); (0, 4, 1); (0, 3, 1)])
    northbound.

(** The session [northbound] with a fresh trail of length 1. *)
Definition single_fix_trail : IKO :=
  set_target_history (Deque.mk 1 []) (set_trail_length 1 northbound).

(** A toolkit in which configuring the range label fails. *)
Definition failing_label_toolkit : Toolkit :=
  mkToolkit
    (fun c _ =>
       match c with
       | RangeValueLabelConfigure =>
           Some (mkExn "TclError" "invalid command name")
       | _ => None
       end)
    (fun _ => 800%Z) (fun _ => 800%Z).

(** ** Predicates of the properties *)

(** The trail of [s] has capacity [n], holds at most [n] fixes, and
    [trail_length] agrees with the capacity. *)
Definition trail_inv (n : nat) (s : IKO) : Prop :=
  Deque.maxlen (target_history s) = n
  /\ (Deque.len (target_history s) <= n)%nat
  /\ trail_length s = Z.of_nat n.

(** The range of a vertex lies in the band of the coastline. *)
Definition in_band (s : IKO) (p : R * R) : Prop :=
  range_scale s * 0.5 <= snd p <= range_scale s - 1.0.


(** The coordinates of an item, and the colours it names (an empty
    string, as in [outline=''], names none). *)
Definition bbox (it : CanvasItem) : R * R * R * R :=
  match it with
  | Oval x0 y0 x1 y1 _ _ _ => (x0, y0, x1, y1)
  | Line x0 y0 x1 y1 _ _ => (x0, y0, x1, y1)
  | Rectangle x0 y0 x1 y1 _ _ _ => (x0, y0, x1, y1)
  end.

Definition named (c : option string) : list string :=
  match c with
  | Some c => if String.eqb c "" then [] else [c]
  | None => []
  end.

Definition colours_of (it : CanvasItem) : list string :=
  match it with
  | Oval _ _ _ _ fill outline _ => named fill ++ named outline
  | Line _ _ _ _ fill _ => named fill
  | Rectangle _ _ _ _ fill outline _ => named fill ++ named outline
  end.

(** A colour of the form [#rrggbb]: seven characters, made of three
    bytes. *)
Definition tk_colour (c : string) : Prop :=
  String.length c = 7%nat
  /\ exists r g b : Z,
       (0 <= r <= 255)%Z /\ (0 <= g <= 255)%Z /\ (0 <= b <= 255)%Z
       /\ c = ("#" ++ format_02x r ++ format_02x g ++ format_02x b)%string.

(** All four coordinates of the item are on the canvas. *)
Definition on_canvas (s : IKO) (it : CanvasItem) : Prop :=
  let '(x0, y0, x1, y1) := bbox it in
  0 <= x0 <= IZR (canvas_size s) /\ 0 <= y0 <= IZR (canvas_size s)
  /\ 0 <= x1 <= IZR (canvas_size s) /\ 0 <= y1 <= IZR (canvas_size s).

(** The square of half-side [r] around the point [p]. *)
Definition square_around (p : R * R) (r : Z) : R * R * R * R :=
  (fst p - IZR r, snd p - IZR r, fst p + IZR r, snd p + IZR r).

(** ** Frame rule of the monad

    [frames P m]: whatever [m] does, and whether it returns or raises, the
    state it leaves is related to the state it started from by [P]. *)

Definition frames {A} (P : IKO -> IKO -> Prop) (m : M A) : Prop :=
  forall s, P s (state_of (m s)).

(** [keeps f]: the attribute (or any function of the state) [f] has the
    same value before and after. *)
Definition keeps {A} (f : IKO -> A) (s s' : IKO) : Prop := f s' = f s.

(** ** What a redraw leaves behind

    [draw_radar_display] writes only the geometry of the canvas
    ([canvas_size], [center], [pixel_per_mile]) and the re-entrancy flag,
    whether it returns or raises. *)

Definition redisplayed (cs c : Z) (p : R) (u : bool) (s : IKO) : IKO :=
  set_updating_size u
    (set_pixel_per_mile p (set_center c (set_canvas_size cs s))).

Definition geometry_only (s s' : IKO) : Prop :=
  exists cs c p u, s' = redisplayed cs c p u s.

(** [preserves I]: if [I] holds before, it holds after. *)
Definition preserves (I : IKO -> Prop) (s s' : IKO) : Prop := I s -> I s'.

(** [published_apart f]: [f] does not depend on what the statements after
    the commit write (the slider variables, the trail, the geometry of the
    canvas). *)
Definition published_apart {A} (f : IKO -> A) : Prop :=
  (forall v s, f (set_range_var v s) = f s)
  /\ (forall v s, f (set_bearing_var v s) = f s)
  /\ (forall d s, f (set_target_history d s) = f s)
  /\ (forall cs c p u s,
        f (redisplayed cs c p u s) = f s).

(** * Properties *)

(** ** Arithmetic helpers *)


Lemma Rmax_Rmin_bounds (lo hi x : R) :
  lo <= hi -> lo <= Rmax lo (Rmin hi x) <= hi.
Proof.
  intros Hle. split.
  - apply Rmax_l.
  - apply Rmax_lub; [exact Hle | apply Rmin_l].
Qed.

Lemma clamp_agrees (lo hi x : R) :
  lo <= hi -> Rmax lo (Rmin hi x) = Spec.clamp x lo hi.
Proof.
  intros Hle. unfold Spec.clamp, Rmax, Rmin.
  repeat destruct (Rle_dec _ _); lra.
Qed.


Lemma div_defined (x y : R) : y <> 0 -> Py.div x y = Some (x / y).
Proof.
  intros Hy. unfold Py.div.
  destruct (Req_dec_T y 0) as [Heq | _]; [contradiction | reflexivity].
Qed.

Lemma ln_10_pos : 0 < ln 10.
Proof.
  rewrite <- ln_1. apply ln_increasing; lra.
Qed.

Lemma log10_monotone (x y : R) :
  0 < x -> x <= y -> Py.log10 x <= Py.log10 y.
Proof.
  intros Hx Hxy. unfold Py.log10.
  apply Rmult_le_compat_r.
  - left. apply Rinv_0_lt_compat, ln_10_pos.
  - destruct Hxy as [Hlt | ->]; [left; now apply ln_increasing | right; reflexivity].
Qed.

Lemma polar_norm (r a : R) :
  0 <= r -> sqrt ((r * sin a) ^ 2 + (r * cos a) ^ 2) = r.
Proof.
  intros Hr.
  replace ((r * sin a) ^ 2 + (r * cos a) ^ 2)
    with (r ^ 2 * (Rsqr (sin a) + Rsqr (cos a)))
    by (unfold Rsqr; ring).
  rewrite sin2_cos2, Rmult_1_r.
  now apply sqrt_pow2.
Qed.

(** ** Signature model *)

(** C5: for every target length, width, aspect angle and range, the
    angular width computed by [calculate_angular_width] lies in
    [[0.18, 3.5]] degrees. *)
Theorem angular_width_bounds (s : IKO) :
  0.18 <= calculate_angular_width s <= 3.5.
Proof.
  unfold calculate_angular_width.
  apply Rmax_Rmin_bounds. lra.
Qed.

Lemma aspect_factor_nonneg (a : R) :
  0 <= Rmax 0.0 (Rmin 1.0 (Rabs (sin (Py.radians a)))).
Proof.
  eapply Rle_trans; [| apply Rmax_l]. lra.
Qed.

Lemma range_factor_pos (x : R) : 0 < Rmax 0.12 x.
Proof.
  eapply Rlt_le_trans; [| apply Rmax_l]. lra.
Qed.

Lemma epr_factor_monotone (e1 e2 : R) :
  e1 <= e2 ->
  Py.log10 (Rmax 0.01 e1 + 1) <= Py.log10 (Rmax 0.01 e2 + 1).
Proof.
  intros He.
  assert (H1 : 0.01 <= Rmax 0.01 e1) by apply Rmax_l.
  apply log10_monotone; [lra |].
  apply Rplus_le_compat_r, Rle_max_compat_l, He.
Qed.

(** C4: when the range scale is not zero (so that the division by it
    returns), [calculate_target_brightness] returns a brightness in
    [[0.05, 1.0]], and for [e1 <= e2] the brightness at EPR [e1] is at
    most the brightness at EPR [e2], aspect angle, range and range scale
    being the same. *)
Theorem brightness_monotone_and_bounded (s : IKO) :
  range_scale s <> 0 ->
  (exists v, calculate_target_brightness s = Some v /\ 0.05 <= v <= 1.0)
  /\ (forall e1 e2 : R,
        e1 <= e2 ->
        exists v1 v2,
          calculate_target_brightness (set_target_epr e1 s) = Some v1
          /\ calculate_target_brightness (set_target_epr e2 s) = Some v2
          /\ v1 <= v2).
Proof.
  intros Hrs. unfold calculate_target_brightness. cbn.
  rewrite (div_defined _ _ Hrs). split.
  - eexists. split; [reflexivity |].
    apply Rmax_Rmin_bounds. lra.
  - intros e1 e2 He. do 2 eexists.
    split; [reflexivity |]. split; [reflexivity |].
    apply Rle_max_compat_l, Rle_min_compat_l, Rplus_le_compat_l.
    apply Rmult_le_compat_r; [lra |].
    apply Rmult_le_compat_r; [left; apply range_factor_pos |].
    apply Rmult_le_compat_r; [apply aspect_factor_nonneg |].
    now apply epr_factor_monotone.
Qed.

Lemma brightness_monotone_and_bounded_witness :
  (exists v,
      calculate_target_brightness (init 1920 1080 middle_draws) = Some v
      /\ 0.05 <= v <= 1.0)
  /\ exists v1 v2,
      calculate_target_brightness
        (set_target_epr 1 (init 1920 1080 middle_draws)) = Some v1
      /\ calculate_target_brightness
           (set_target_epr 2 (init 1920 1080 middle_draws)) = Some v2
      /\ v1 <= v2.
Proof.
  assert (H : range_scale (init 1920 1080 middle_draws) <> 0)
    by (cbn; lra).
  destruct (brightness_monotone_and_bounded _ H) as [Hbounds Hmono].
  split; [exact Hbounds | apply Hmono; lra].
Defined.

(** C9: for every base intensity and range, when the range scale is not
    zero, [calculate_clutter_brightness] returns the specification's
    [clutterBrightness], and that value lies in [[0.05, 0.8]]. *)
Theorem clutter_brightness_formula (s : IKO) (base_intensity range_val : R) :
  range_scale s <> 0 ->
  calculate_clutter_brightness s base_intensity range_val
  = Some (Spec.clutterBrightness (range_scale s) base_intensity range_val)
  /\ 0.05
     <= Spec.clutterBrightness (range_scale s) base_intensity range_val
     <= 0.8.
Proof.
  intros Hrs.
  unfold calculate_clutter_brightness, Spec.clutterBrightness.
  rewrite (div_defined _ _ Hrs), <- clamp_agrees by lra.
  replace 1.0 with 1 by lra.
  split; [reflexivity | apply Rmax_Rmin_bounds; lra].
Qed.

Lemma clutter_brightness_formula_witness :
  calculate_clutter_brightness (init 1920 1080 middle_draws) 0.3 12
  = Some (Spec.clutterBrightness
            (range_scale (init 1920 1080 middle_draws)) 0.3 12)
  /\ 0.05
     <= Spec.clutterBrightness
          (range_scale (init 1920 1080 middle_draws)) 0.3 12
     <= 0.8.
Proof.
  apply (clutter_brightness_formula (init 1920 1080 middle_draws) 0.3 12).
  cbn; lra.
Defined.

(** ** Frame rule of the monad *)

Section Frames.

Variable P : IKO -> IKO -> Prop.
Hypothesis P_refl : forall s, P s s.
Hypothesis P_trans : forall s1 s2 s3, P s1 s2 -> P s2 s3 -> P s1 s3.

Lemma frames_ret {A} (a : A) : frames P (ret a).
Proof using P_refl. intros s. apply P_refl. Qed.

Lemma frames_gets {A} (f : IKO -> A) : frames P (gets f).
Proof using P_refl. intros s. apply P_refl. Qed.

Lemma frames_tk_call (tk : Toolkit) (c : TkCall) : frames P (tk_call tk c).
Proof using P_refl.
  intros s. unfold tk_call. destruct (tk_raises tk c s); apply P_refl.
Qed.

Lemma frames_modify (f : IKO -> IKO) :
  (forall s, P s (f s)) -> frames P (modify f).
Proof using Type. intros Hf s. apply Hf. Qed.

Lemma frames_bind {A B} (m : M A) (k : A -> M B) :
  frames P m -> (forall a, frames P (k a)) -> frames P (bind m k).
Proof using P_trans.
  intros Hm Hk s. unfold bind. specialize (Hm s).
  destruct (m s) as [a s1 | e s1]; cbn in Hm |- *.
  - eapply P_trans; [exact Hm | apply Hk].
  - exact Hm.
Qed.

Lemma frames_try_finally {A} (body : M A) (fin : IKO -> IKO) :
  frames P body -> (forall s, P s (fin s)) ->
  frames P (try_finally body fin).
Proof using P_trans.
  intros Hb Hf s. unfold try_finally. specialize (Hb s).
  destruct (body s) as [a s1 | e s1]; cbn in Hb |- *;
    (eapply P_trans; [exact Hb | apply Hf]).
Qed.

Lemma frames_try_except {A} (body : M A) (handler : Exn -> M A) :
  frames P body -> (forall e, frames P (handler e)) ->
  frames P (try_except body handler).
Proof using P_trans.
  intros Hb Hh s. unfold try_except. specialize (Hb s).
  destruct (body s) as [a s1 | e s1]; cbn in Hb |- *.
  - exact Hb.
  - eapply P_trans; [exact Hb | apply Hh].
Qed.

End Frames.

(** ** What a redraw leaves behind *)

Lemma geometry_only_refl (s : IKO) : geometry_only s s.
Proof.
  exists (canvas_size s), (center s), (pixel_per_mile s), (updating_size s).
  destruct s. reflexivity.
Qed.

Lemma geometry_only_trans (s1 s2 s3 : IKO) :
  geometry_only s1 s2 -> geometry_only s2 s3 -> geometry_only s1 s3.
Proof.
  intros (cs & c & p & u & ->) (cs' & c' & p' & u' & ->).
  exists cs', c', p', u'. reflexivity.
Qed.

Lemma geometry_only_canvas_size (v : Z) (s : IKO) :
  geometry_only s (set_canvas_size v s).
Proof.
  exists v, (center s), (pixel_per_mile s), (updating_size s).
  destruct s. reflexivity.
Qed.

Lemma geometry_only_center (v : Z) (s : IKO) :
  geometry_only s (set_center v s).
Proof.
  exists (canvas_size s), v, (pixel_per_mile s), (updating_size s).
  destruct s. reflexivity.
Qed.

Lemma geometry_only_pixel_per_mile (v : R) (s : IKO) :
  geometry_only s (set_pixel_per_mile v s).
Proof.
  exists (canvas_size s), (center s), v, (updating_size s).
  destruct s. reflexivity.
Qed.

Lemma geometry_only_updating_size (v : bool) (s : IKO) :
  geometry_only s (set_updating_size v s).
Proof.
  exists (canvas_size s), (center s), (pixel_per_mile s), v.
  destruct s. reflexivity.
Qed.

(** Splits a method into its steps by the frame rule. *)
Ltac frame_steps Prefl Ptrans :=
  repeat match goal with
         | |- frames _ (bind _ _) =>
             apply (frames_bind _ Ptrans); [| intros ? ]
         | |- frames _ (try_finally _ _) =>
             apply (frames_try_finally _ Ptrans)
         | |- frames _ (try_except _ _) =>
             apply (frames_try_except _ Ptrans); [| intros ? ]
         | |- frames _ (tk_call _ _) => apply (frames_tk_call _ Prefl)
         | |- frames _ (gets _) => apply (frames_gets _ Prefl)
         | |- frames _ (ret _) => apply (frames_ret _ Prefl)
         | |- frames _ (modify _) => apply frames_modify; intros ?
         end.

Lemma update_canvas_size_frame (tk : Toolkit) :
  frames geometry_only (update_canvas_size tk).
Proof.
  intros s. unfold update_canvas_size.
  destruct (updating_size s); [apply geometry_only_refl |].
  match goal with |- geometry_only s (state_of (?m s)) =>
    enough (H : frames geometry_only m) by apply H end.
  clear s.
  frame_steps geometry_only_refl geometry_only_trans.
  - apply geometry_only_updating_size.
  - match goal with |- frames _ (if ?b then _ else _) => destruct b end;
      frame_steps geometry_only_refl geometry_only_trans.
    apply geometry_only_canvas_size.
  - apply geometry_only_center.
  - intros s. destruct (Py.div _ _); cbn [state_of].
    + apply geometry_only_pixel_per_mile.
    + apply geometry_only_refl.
  - intros s. apply geometry_only_updating_size.
Qed.

Lemma draw_radar_display_frame (tk : Toolkit) (s : IKO) :
  exists cs c p u,
    draw_radar_display tk s = Ok tt (redisplayed cs c p u s)
    \/ exists e, draw_radar_display tk s = Raise e (redisplayed cs c p u s).
Proof.
  assert (H : frames geometry_only (draw_radar_display tk)).
  { unfold draw_radar_display.
    frame_steps geometry_only_refl geometry_only_trans.
    apply update_canvas_size_frame. }
  destruct (H s) as (cs & c & p & u & Hs).
  exists cs, c, p, u.
  destruct (draw_radar_display tk s) as [[] s' | e s']; cbn in Hs; subst s'.
  - left; reflexivity.
  - right; exists e; reflexivity.
Qed.

(** ** History trail *)

Lemma appendleft_len {A} (x : A) (d : Deque.deque A) :
  (Deque.len (Deque.appendleft x d) <= Deque.maxlen d)%nat.
Proof.
  unfold Deque.len, Deque.appendleft. cbn [Deque.items].
  rewrite length_firstn. apply Nat.le_min_l.
Qed.

(** [add_to_history] either leaves the trail alone or pushes the current
    fix on its left end; it writes no other attribute. *)
Lemma add_to_history_cases (s : IKO) :
  add_to_history s = s
  \/ add_to_history s
     = set_target_history
         (Deque.appendleft
            (target_bearing s, target_range s, target_epr s)
            (target_history s)) s.
Proof.
  unfold add_to_history.
  destruct (Deque.items (target_history s)) as [| [[lb lr] le] rest].
  - right; reflexivity.
  - destruct (Rgt_dec _ _); [right; reflexivity |].
    destruct (Rgt_dec _ _); [right; reflexivity | left; reflexivity].
Qed.

Lemma add_to_history_inv (n : nat) (s : IKO) :
  trail_inv n s -> trail_inv n (add_to_history s).
Proof.
  intros (Hmax & Hlen & Htl).
  destruct (add_to_history_cases s) as [-> | ->].
  - now repeat split.
  - subst n. unfold trail_inv. cbn [target_history set_target_history].
    split; [reflexivity | split; [| exact Htl]].
    apply appendleft_len.
Qed.

Lemma record_fix_inv (n : nat) (f : TargetFix) (s : IKO) :
  trail_inv n s -> trail_inv n (record_fix f s).
Proof.
  intros H. destruct f as [[b r] e]. unfold record_fix.
  apply add_to_history_inv. exact H.
Qed.

Lemma record_fixes_inv (n : nat) (fs : list TargetFix) :
  forall s, trail_inv n s -> trail_inv n (record_fixes fs s).
Proof.
  induction fs as [| f fs IH]; intros s H; cbn.
  - exact H.
  - apply IH, record_fix_inv, H.
Qed.

Lemma fresh_trail_inv (n : nat) (s : IKO) :
  target_history s = Deque.mk n [] ->
  trail_length s = Z.of_nat n ->
  trail_inv n s.
Proof.
  intros Hh Htl. unfold trail_inv, Deque.len. rewrite Hh. cbn.
  repeat split; [lia | exact Htl].
Qed.

(** A recorded fix either leaves the trail alone or becomes its first
    item, the items beyond the capacity falling off the right end. *)
Lemma record_fix_items (f : TargetFix) (s : IKO) :
  target_history (record_fix f s) = target_history s
  \/ Deque.items (target_history (record_fix f s))
     = firstn (Deque.maxlen (target_history s))
         (f :: Deque.items (target_history s)).
Proof.
  destruct f as [[b r] e]. unfold record_fix.
  match goal with |- context [add_to_history ?t] =>
    destruct (add_to_history_cases t) as [-> | ->] end.
  - left; reflexivity.
  - right; reflexivity.
Qed.

(** Inside the deadband nothing is recorded. *)
Lemma record_fix_deadband (b r e lb lr le : R) (rest : list TargetFix)
    (s : IKO) :
  Deque.items (target_history s) = (lb, lr, le) :: rest ->
  Rabs (b - lb) <= 1.0 ->
  Rabs (r - lr) <= 0.1 ->
  target_history (record_fix (b, r, e) s) = target_history s.
Proof.
  intros Hitems Hb Hr. unfold record_fix, add_to_history. cbn.
  rewrite Hitems.
  destruct (Rgt_dec _ _) as [Hgt | _]; [lra |].
  destruct (Rgt_dec _ _) as [Hgt | _]; [lra |].
  reflexivity.
Qed.

(** The trail right after [__init__] and right after
    [on_trail_length_change] is a fresh deque whose capacity is
    [trail_length]. *)
Lemma init_trail_fresh (w h : Z) (g : Random.state) :
  target_history (init w h g) = Deque.mk 30 []
  /\ trail_length (init w h g) = Z.of_nat 30.
Proof. split; reflexivity. Qed.

Lemma int_nonneg (value : R) : 0 <= value -> (0 <= Py.int value)%Z.
Proof.
  intros Hv. unfold Py.int.
  destruct (Rle_dec 0 value) as [_ | Hn]; [| contradiction].
  apply (Zfloor_lub 0). exact Hv.
Qed.

Lemma on_trail_length_change_fresh (tk : Toolkit) (value : R) (s : IKO) :
  (0 <= Py.int value)%Z ->
  let s1 := state_of (on_trail_length_change tk value s) in
  target_history s1 = Deque.mk (Z.to_nat (Py.int value)) []
  /\ trail_length s1 = Py.int value.
Proof.
  intros Hi.
  unfold on_trail_length_change, bind, modify, tk_call, Deque.new. cbn.
  destruct (Z.ltb_spec (Py.int value) 0) as [Hneg | _]; [lia |].
  match goal with |- context [tk_raises tk ?c ?t] =>
    destruct (tk_raises tk c t) end.
  - cbn. split; reflexivity.
  - match goal with |- context [draw_radar_display tk ?t] =>
      destruct (draw_radar_display_frame tk t)
        as (cs & c & p & u & [-> | [e ->]]) end;
      cbn; split; reflexivity.
Qed.

(** The slider of the trail length runs from 0 to 100: its values never
    make [deque] fail. *)
Lemma slider_trail_length_fresh (tk : Toolkit) (value : R) (s : IKO) :
  0 <= value ->
  let s1 := state_of (on_trail_length_change tk value s) in
  target_history s1 = Deque.mk (Z.to_nat (Py.int value)) []
  /\ trail_length s1 = Z.of_nat (Z.to_nat (Py.int value)).
Proof.
  intros Hv s1. pose proof (int_nonneg value Hv) as Hi.
  destruct (on_trail_length_change_fresh tk value s Hi) as [Hh Htl].
  fold s1 in Hh, Htl. split; [exact Hh |].
  rewrite Htl. lia.
Qed.

(** C3: starting from a fresh trail of capacity [n] (as [__init__] and
    [on_trail_length_change] create it, with [trail_length = n]), after
    every sequence of recorded fixes the trail holds at most
    [trail_length] fixes; a further fix is either not recorded or becomes
    the first item while the items beyond the capacity drop off the far
    end; and a fix within 1.0 degree of bearing and 0.1 mile of range of
    the first item of a non-empty trail leaves the trail as it is. *)
Theorem history_trail_bounded (n : nat) (s : IKO) (fs : list TargetFix) :
  target_history s = Deque.mk n [] ->
  trail_length s = Z.of_nat n ->
  let s' := record_fixes fs s in
  (Z.of_nat (Deque.len (target_history s')) <= trail_length s')%Z
  /\ trail_length s' = Z.of_nat n
  /\ (forall f : TargetFix,
        target_history (record_fix f s') = target_history s'
        \/ Deque.items (target_history (record_fix f s'))
           = firstn n (f :: Deque.items (target_history s')))
  /\ (forall (b r e lb lr le : R) (rest : list TargetFix),
        Deque.items (target_history s') = (lb, lr, le) :: rest ->
        Rabs (b - lb) <= 1.0 ->
        Rabs (r - lr) <= 0.1 ->
        target_history (record_fix (b, r, e) s') = target_history s').
Proof.
  intros Hfresh Htl s'.
  assert (Hinv : trail_inv n s')
    by (apply record_fixes_inv, fresh_trail_inv; assumption).
  destruct Hinv as (Hmax & Hlen & Htl').
  repeat split.
  - rewrite Htl'. lia.
  - exact Htl'.
  - intros f. rewrite <- Hmax. apply record_fix_items.
  - intros b r e lb lr le rest. apply record_fix_deadband.
Qed.

Lemma history_trail_bounded_witness :
  let s' :=
    record_fixes [(10, 5, 1); (20, 6, 1)] (init 1920 1080 middle_draws) in
  (Z.of_nat (Deque.len (target_history s')) <= trail_length s')%Z
  /\ trail_length s' = Z.of_nat 30
  /\ (forall f : TargetFix,
        target_history (record_fix f s') = target_history s'
        \/ Deque.items (target_history (record_fix f s'))
           = firstn 30 (f :: Deque.items (target_history s')))
  /\ (forall (b r e lb lr le : R) (rest : list TargetFix),
        Deque.items (target_history s') = (lb, lr, le) :: rest ->
        Rabs (b - lb) <= 1.0 ->
        Rabs (r - lr) <= 0.1 ->
        target_history (record_fix (b, r, e) s') = target_history s').
Proof.
  apply (history_trail_bounded 30 (init 1920 1080 middle_draws)
           [(10, 5, 1); (20, 6, 1)]); reflexivity.
Defined.

(** C10: once [on_trail_length_change] has set a trail length of 0, the
    trail is empty after every sequence of recorded fixes, and recording
    one more fix changes nothing: the branch for the empty trail pushes
    into a deque of capacity 0, which keeps nothing. *)
Theorem zero_length_trail_stays_empty
    (tk : Toolkit) (value : R) (s : IKO) (fs : list TargetFix) :
  Py.int value = 0%Z ->
  let s1 := state_of (on_trail_length_change tk value s) in
  let s' := record_fixes fs s1 in
  trail_length s1 = 0%Z
  /\ Deque.len (target_history s') = 0%nat
  /\ (forall f : TargetFix,
        Deque.items (target_history s') = []
        /\ target_history (record_fix f s') = target_history s').
Proof.
  intros Hint s1 s'.
  assert (Hi : (0 <= Py.int value)%Z) by lia.
  destruct (on_trail_length_change_fresh tk value s Hi) as [Hh Htl].
  fold s1 in Hh, Htl. rewrite Hint in Hh, Htl. cbn in Hh.
  assert (Hinv : trail_inv 0 s')
    by (apply record_fixes_inv, fresh_trail_inv; assumption).
  assert (Hempty : forall t, trail_inv 0 t -> target_history t = Deque.mk 0 []).
  { intros t (Hmax & Hlen & _). unfold Deque.len in Hlen.
    destruct (target_history t) as [m l]. cbn in *. subst m.
    destruct l; [reflexivity | cbn in Hlen; lia]. }
  repeat split.
  - exact Htl.
  - rewrite (Hempty _ Hinv). reflexivity.
  - rewrite (Hempty _ Hinv). reflexivity.
  - rewrite (Hempty _ Hinv).
    apply Hempty, record_fix_inv, Hinv.
Qed.

Lemma zero_length_trail_stays_empty_witness :
  let s1 :=
    state_of (on_trail_length_change quiet_toolkit 0
                (init 1920 1080 middle_draws)) in
  let s' := record_fixes [(10, 5, 1); (20, 6, 1)] s1 in
  trail_length s1 = 0%Z
  /\ Deque.len (target_history s') = 0%nat
  /\ (forall f : TargetFix,
        Deque.items (target_history s') = []
        /\ target_history (record_fix f s') = target_history s').
Proof.
  apply (zero_length_trail_stays_empty quiet_toolkit 0
           (init 1920 1080 middle_draws) [(10, 5, 1); (20, 6, 1)]).
  unfold Py.int. destruct (Rle_dec 0 0) as [_ | Hn]; [| lra].
  apply (ZfloorZ 0).
Defined.

(** ** Coastline generator *)

Section Coastline.

Variable s : IKO.

Hypothesis band_not_empty : 2 <= range_scale s.

Lemma coastline_loop_shape (base_dir : R) (idx : list nat) :
  forall (points : list (R * R)) (g : Random.state),
    Forall (in_band s) points ->
    let out := fst (coastline_loop s base_dir idx points g) in
    List.length out = (List.length points + List.length idx)%nat
    /\ Forall (in_band s) out.
Proof using band_not_empty.
  induction idx as [| i idx IH]; intros points g Hpts; cbn.
  - split; [lia | exact Hpts].
  - unfold Random.bind, Random.uniform, Random.random, Random.ret. cbn.
    match goal with |- context [coastline_loop s base_dir idx ?ps ?g'] =>
      destruct (IH ps g') as [Hlen Hband] end.
    + apply Forall_app. split; [exact Hpts |].
      constructor; [| constructor].
      unfold in_band. cbn [snd].
      apply Rmax_Rmin_bounds. lra.
    + split; [| exact Hband].
      rewrite Hlen, length_app. cbn. lia.
Qed.

Lemma window_index_in_range (n : nat) (z : Z) :
  (0 < n)%nat -> (Z.to_nat (z mod Z.of_nat n) < n)%nat.
Proof using Type.
  intros Hn.
  assert (H : (0 <= z mod Z.of_nat n < Z.of_nat n)%Z)
    by (apply Z.mod_pos_bound; lia).
  lia.
Qed.

Lemma nth_in_band (points : list (R * R)) (k : nat) :
  Forall (in_band s) points ->
  (k < List.length points)%nat ->
  in_band s (nth k points (0, 0)).
Proof using Type.
  intros Hall Hk. rewrite Forall_forall in Hall.
  apply Hall, nth_In, Hk.
Qed.

Lemma smooth_coastline_shape (points : list (R * R)) :
  Forall (in_band s) points ->
  List.length (smooth_coastline points) = List.length points
  /\ Forall (in_band s) (smooth_coastline points).
Proof using Type.
  intros Hall. unfold smooth_coastline. split.
  - now rewrite length_map, length_seq.
  - apply Forall_map, Forall_forall. intros i Hi.
    apply in_seq in Hi.
    assert (Hn : (0 < List.length points)%nat) by lia.
    unfold smooth_window. cbn [fold_left fst snd].
    pose proof (nth_in_band points _ Hall
                  (window_index_in_range _ (Z.of_nat i + -2) Hn)) as H1.
    pose proof (nth_in_band points _ Hall
                  (window_index_in_range _ (Z.of_nat i + -1) Hn)) as H2.
    pose proof (nth_in_band points _ Hall
                  (window_index_in_range _ (Z.of_nat i + 0) Hn)) as H3.
    pose proof (nth_in_band points _ Hall
                  (window_index_in_range _ (Z.of_nat i + 1) Hn)) as H4.
    pose proof (nth_in_band points _ Hall
                  (window_index_in_range _ (Z.of_nat i + 2) Hn)) as H5.
    unfold in_band in *. cbn [snd].
    replace (IZR (0 + 1 + 1 + 1 + 1 + 1)) with 5 by (cbn; lra).
    lra.
Qed.

End Coastline.

(** What [generate_coastline] returns is the smoothing of 40 vertices
    that lie in the band. *)
Lemma generate_coastline_raw (s : IKO) (g : Random.state) :
  2 <= range_scale s ->
  exists points,
    fst (generate_coastline s g) = smooth_coastline points
    /\ List.length points = 40%nat
    /\ Forall (in_band s) points.
Proof.
  intros Hrs.
  unfold generate_coastline, Random.uniform.
  unfold Random.bind, Random.random, Random.ret.
  cbv beta iota.
  match goal with |- context [coastline_loop s ?b ?idx [] ?g'] =>
    pose proof (coastline_loop_shape s Hrs b idx [] g' (Forall_nil _))
      as Hshape;
    destruct (coastline_loop s b idx [] g') as [points g'']
  end.
  cbv zeta in Hshape. cbn [fst] in Hshape. destruct Hshape as [Hlen Hband].
  exists points. cbn [fst]. repeat split; assumption.
Qed.

(** [generate_coastline] returns the smoothing of the vertices of its
    first loop. *)
Lemma generate_coastline_smooths (s : IKO) (g : Random.state) :
  fst (generate_coastline s g) = smooth_coastline (raw_coastline s g).
Proof.
  unfold generate_coastline, raw_coastline, Random.uniform.
  unfold Random.bind, Random.random, Random.ret.
  cbv beta iota.
  match goal with |- context [coastline_loop s ?b ?idx [] ?g'] =>
    destruct (coastline_loop s b idx [] g') as [points g'']
  end.
  reflexivity.
Qed.

Lemma nth_snd (points : list (R * R)) (k : nat) :
  nth k (map snd points) 0 = snd (nth k points (0, 0)).
Proof. exact (map_nth snd points (0, 0) k). Qed.

(** The smoothing keeps the bearing of every vertex and replaces its
    range by the circular 5-sample average of the ranges. *)
Lemma smooth_coastline_nth (points : list (R * R)) (i : nat) :
  (i < List.length points)%nat ->
  nth i (smooth_coastline points) (0, 0)
  = (fst (nth i points (0, 0)), Spec.moving_average (map snd points) i).
Proof.
  intros Hi. unfold smooth_coastline.
  match goal with |- nth i (map ?f _) _ = _ =>
    rewrite (nth_indep _ (0, 0) (f 0%nat))
      by (rewrite length_map, length_seq; exact Hi);
    rewrite (map_nth f)
  end.
  rewrite seq_nth by exact Hi. cbn [Nat.add].
  unfold smooth_window, Spec.moving_average.
  cbn [fold_left fst snd]. cbv zeta.
  rewrite length_map, !nth_snd. f_equal.
  replace (IZR (0 + 1 + 1 + 1 + 1 + 1)) with 5 by (cbn; lra).
  lra.
Qed.

(** The first loop builds 40 vertices, each with its range in the
    band. *)
Lemma raw_coastline_shape (s : IKO) (g : Random.state) :
  2 <= range_scale s ->
  List.length (raw_coastline s g) = 40%nat
  /\ Forall (in_band s) (raw_coastline s g).
Proof.
  intros Hrs.
  unfold raw_coastline, Random.uniform.
  unfold Random.bind, Random.random, Random.ret.
  cbv beta iota.
  match goal with |- context [coastline_loop s ?b ?idx [] ?g'] =>
    pose proof (coastline_loop_shape s Hrs b idx [] g' (Forall_nil _))
      as Hshape;
    destruct (coastline_loop s b idx [] g') as [points g'']
  end.
  cbv zeta in Hshape. cbn [fst] in *. exact Hshape.
Qed.

(** C6: for every target bearing and every stream of random draws, with a
    range scale of at least 2 miles (it is 24.0 throughout the session),
    [generate_coastline] returns exactly 40 vertices, the range of each
    lies in [[0.5 * range_scale, range_scale - 1.0]], and the vertices
    are the smoothed vertices of the first loop: each keeps the bearing
    of the raw vertex at its index, and its range is the circular
    moving average over 5 samples of the raw ranges. *)
Theorem generate_coastline_shape (s : IKO) (g : Random.state) :
  2 <= range_scale s ->
  let coast := fst (generate_coastline s g) in
  let raw := raw_coastline s g in
  List.length coast = 40%nat
  /\ Forall (fun p => range_scale s * 0.5 <= snd p <= range_scale s - 1.0)
       coast
  /\ List.length raw = 40%nat
  /\ forall i : nat,
       (i < 40)%nat ->
       fst (nth i coast (0, 0)) = fst (nth i raw (0, 0))
       /\ snd (nth i coast (0, 0)) = Spec.moving_average (map snd raw) i.
Proof.
  intros Hrs coast raw. subst coast raw.
  destruct (raw_coastline_shape s g Hrs) as [Hlen Hband].
  pose proof (generate_coastline_smooths s g) as Hsmooth.
  generalize dependent (raw_coastline s g). intros raw Hlen Hband Hsmooth.
  generalize dependent (fst (generate_coastline s g)).
  intros coast Hsmooth. subst coast.
  destruct (smooth_coastline_shape s raw Hband) as [Hlen' Hband'].
  split; [rewrite Hlen'; exact Hlen |].
  split; [exact Hband' |].
  split; [exact Hlen |].
  intros i Hi. rewrite smooth_coastline_nth by (rewrite Hlen; exact Hi).
  cbn [fst snd]. split; reflexivity.
Qed.

Lemma generate_coastline_shape_witness :
  let s := init 1920 1080 middle_draws in
  let coast := fst (generate_coastline s middle_draws) in
  let raw := raw_coastline s middle_draws in
  List.length coast = 40%nat
  /\ Forall (fun p => range_scale s * 0.5 <= snd p <= range_scale s - 1.0)
       coast
  /\ List.length raw = 40%nat
  /\ forall i : nat,
       (i < 40)%nat ->
       fst (nth i coast (0, 0)) = fst (nth i raw (0, 0))
       /\ snd (nth i coast (0, 0)) = Spec.moving_average (map snd raw) i.
Proof.
  apply (generate_coastline_shape (init 1920 1080 middle_draws) middle_draws).
  cbn; lra.
Defined.

(** ** Kinematics tick *)

(** *** What the steps of a tick keep *)

Lemma keeps_refl {A} (f : IKO -> A) (s : IKO) : keeps f s s.
Proof. reflexivity. Qed.

Lemma keeps_trans {A} (f : IKO -> A) (s1 s2 s3 : IKO) :
  keeps f s1 s2 -> keeps f s2 s3 -> keeps f s1 s3.
Proof. unfold keeps. congruence. Qed.

Lemma add_to_history_keeps {A} (f : IKO -> A) :
  (forall d s, f (set_target_history d s) = f s) ->
  forall s, keeps f s (add_to_history s).
Proof.
  intros Hf s. unfold keeps.
  destruct (add_to_history_cases s) as [-> | ->]; [reflexivity | apply Hf].
Qed.

Lemma draw_radar_display_keeps {A} (f : IKO -> A) (tk : Toolkit) :
  (forall cs c p u s, f (redisplayed cs c p u s) = f s) ->
  frames (keeps f) (draw_radar_display tk).
Proof.
  intros Hf s. unfold keeps.
  destruct (draw_radar_display_frame tk s)
    as (cs & c & p & u & [-> | [e ->]]); apply Hf.
Qed.

Lemma publish_position_keeps {A} (f : IKO -> A) (tk : Toolkit) :
  published_apart f -> frames (keeps f) (publish_position tk).
Proof.
  intros (Hr & Hb & Hh & Hd). unfold publish_position.
  frame_steps (keeps_refl f) (keeps_trans f).
  - intros s. apply Hr.
  - intros s. apply Hb.
  - now apply add_to_history_keeps.
  - now apply draw_radar_display_keeps.
Qed.

(** The position, the Moving flag, the interval, the status variable and
    the queue of [root.after] are among the attributes that
    [publish_position] keeps. *)
Ltac published := repeat split; reflexivity.

(** The three ways [schedule_next] can end. *)
Lemma schedule_next_cases (tk : Toolkit) (s : IKO) :
  (target_moving s = false /\ schedule_next tk s = Ok tt s)
  \/ (target_moving s = true
      /\ schedule_next tk s
         = Ok tt
             (set_root_after
                (root_after s ++ [(simulation_interval s, CbSimulateMovement)])
                s))
  \/ (exists e, schedule_next tk s = Raise e s).
Proof.
  unfold schedule_next, root_after_call, bind, tk_call, modify.
  destruct (target_moving s).
  - destruct (tk_raises tk RootAfter s) as [e |].
    + right; right. exists e. reflexivity.
    + right; left. split; reflexivity.
  - left. split; reflexivity.
Qed.

(** The two branches of the [try] block. *)
Lemma simulate_movement_try_outside (tk : Toolkit) (s : IKO) :
  fst (new_position s) >= range_scale s - 0.5 ->
  simulate_movement_try tk s
  = Ok tt
      (set_info_var (msg_stopped :: msg_left_scope :: info_var s)
         (set_target_moving false
            (set_info_var (msg_left_scope :: info_var s) s))).
Proof.
  intros Hout. unfold simulate_movement_try.
  destruct (new_position s) as [new_range new_bearing]. cbn [fst] in Hout.
  destruct (Rge_dec new_range (range_scale s - 0.5)) as [_ | Hin];
    [reflexivity | contradiction].
Qed.

Lemma simulate_movement_try_inside (tk : Toolkit) (s : IKO) :
  fst (new_position s) < range_scale s - 0.5 ->
  simulate_movement_try tk s
  = bind (publish_position tk) (fun _ => schedule_next tk)
      (set_target_bearing (snd (new_position s))
         (set_target_range (fst (new_position s)) s)).
Proof.
  intros Hin. unfold simulate_movement_try.
  destruct (new_position s) as [new_range new_bearing].
  cbn [fst snd] in *.
  destruct (Rge_dec new_range (range_scale s - 0.5)) as [Hout | _];
    [lra | reflexivity].
Qed.

(** After the [try] block inside the scope, an attribute that
    [publish_position] and [root.after] do not write has the value the
    commit of the new position gave it. *)
Lemma simulate_movement_try_committed {A} (f : IKO -> A) (tk : Toolkit)
    (s : IKO) :
  published_apart f ->
  (forall v s, f (set_root_after v s) = f s) ->
  fst (new_position s) < range_scale s - 0.5 ->
  f (state_of (simulate_movement_try tk s))
  = f (set_target_bearing (snd (new_position s))
         (set_target_range (fst (new_position s)) s)).
Proof.
  intros Hpub Hafter Hin.
  rewrite simulate_movement_try_inside by exact Hin.
  set (s2 := set_target_bearing _ _).
  pose proof (publish_position_keeps f tk Hpub s2) as Hkeep.
  unfold keeps in Hkeep. unfold bind.
  destruct (publish_position tk s2) as [[] s3 | e3 s3]; cbn [state_of] in *.
  - destruct (schedule_next_cases tk s3)
      as [[_ ->] | [[_ ->] | [e ->]]]; cbn [state_of];
      rewrite ?Hafter; exact Hkeep.
  - exact Hkeep.
Qed.

(** If moreover the commit does not write it, it has the value it had
    before. *)
Lemma simulate_movement_try_keeps {A} (f : IKO -> A) (tk : Toolkit) (s : IKO) :
  published_apart f ->
  (forall v s, f (set_target_range v s) = f s) ->
  (forall v s, f (set_target_bearing v s) = f s) ->
  (forall v s, f (set_root_after v s) = f s) ->
  fst (new_position s) < range_scale s - 0.5 ->
  f (state_of (simulate_movement_try tk s)) = f s.
Proof.
  intros Hpub Hrange Hbearing Hafter Hin.
  rewrite simulate_movement_try_committed by assumption.
  now rewrite Hbearing, Hrange.
Qed.

(** When the [try] block raises, it has written neither the status
    variable nor the queue of [root.after]. *)
Lemma simulate_movement_try_raise (tk : Toolkit) (s s1 : IKO) (e : Exn) :
  simulate_movement_try tk s = Raise e s1 ->
  info_var s1 = info_var s /\ root_after s1 = root_after s.
Proof.
  intros Hraise.
  destruct (Rge_dec (fst (new_position s)) (range_scale s - 0.5))
    as [Hout | Hin].
  - rewrite simulate_movement_try_outside in Hraise by exact Hout.
    discriminate Hraise.
  - apply Rnot_ge_lt in Hin.
    split.
    + rewrite <- (simulate_movement_try_keeps info_var tk s); try published;
        [rewrite Hraise; reflexivity | exact Hin].
    + rewrite simulate_movement_try_inside in Hraise by exact Hin.
      set (s2 := set_target_bearing _ _) in Hraise.
      assert (Hpub : published_apart root_after) by published.
      pose proof (publish_position_keeps root_after tk Hpub s2) as Hkeep.
      unfold keeps in Hkeep. unfold bind in Hraise.
      destruct (publish_position tk s2) as [[] s3 | e3 s3];
        cbn [state_of] in Hkeep.
      * destruct (schedule_next_cases tk s3)
          as [[_ Hs] | [[_ Hs] | [e' Hs]]];
          rewrite Hs in Hraise; inversion Hraise; subst.
        exact Hkeep.
      * inversion Hraise; subst. exact Hkeep.
Qed.

Lemma fmod_small (x m : R) : 0 <= x < m -> Py.fmod x m = x.
Proof.
  intros [H0 Hm]. unfold Py.fmod.
  assert (Hmpos : 0 < m) by lra.
  rewrite (Zfloor_eq 0 (x / m)).
  - lra.
  - split.
    + apply Rmult_le_pos; [exact H0 | left; now apply Rinv_0_lt_compat].
    + replace (0 + 1) with (m / m) by (field; lra).
      apply Rmult_lt_compat_r; [now apply Rinv_0_lt_compat | exact Hm].
Qed.

Lemma atan2_right_of_origin (x : R) : 0 < x -> Py.atan2 0 x = 0.
Proof.
  intros Hx. unfold Py.atan2.
  destruct (Rlt_dec 0 x) as [_ | Hn]; [| contradiction].
  replace (0 / x) with 0 by (field; lra).
  apply atan_0.
Qed.

(** The closed form of the example: 3600 knots for one second, due north
    from 5 miles on bearing 0. *)
Lemma new_position_due_north (s : IKO) :
  target_bearing s = 0 ->
  target_range s = 5 ->
  target_course s = 0 ->
  target_speed s = 3600 ->
  simulation_interval s = 1000%Z ->
  new_position s = (6, 0).
Proof.
  intros Hb Hr Hc Hv Hi. unfold new_position.
  rewrite Hb, Hr, Hc, Hv, Hi.
  replace (Py.radians 0) with 0 by (unfold Py.radians; lra).
  rewrite sin_0, cos_0.
  replace (5 * 0 + 3600 * (1000 / 1000.0) / 3600.0 * 0) with 0 by lra.
  replace (5 * 1 + 3600 * (1000 / 1000.0) / 3600.0 * 1) with 6 by lra.
  replace (0 ^ 2 + 6 ^ 2) with (6 ^ 2) by lra.
  rewrite sqrt_pow2 by lra.
  rewrite atan2_right_of_origin by lra.
  replace (Py.degrees 0) with 0 by (unfold Py.degrees; lra).
  rewrite fmod_small by lra.
  reflexivity.
Qed.

(** A target that heads straight out (course equal to bearing) gains
    exactly the distance travelled. *)
Lemma new_position_radial (s : IKO) :
  target_course s = target_bearing s ->
  0 <= target_range s ->
  0 <= target_speed s * (IZR (simulation_interval s) / 1000.0) / 3600.0 ->
  fst (new_position s)
  = target_range s
    + target_speed s * (IZR (simulation_interval s) / 1000.0) / 3600.0.
Proof.
  intros Hc Hr Hd. unfold new_position. cbn [fst]. rewrite Hc.
  set (a := Py.radians (target_bearing s)).
  set (d := target_speed s * (IZR (simulation_interval s) / 1000.0) / 3600.0)
    in *.
  transitivity
    (sqrt (((target_range s + d) * sin a) ^ 2
           + ((target_range s + d) * cos a) ^ 2)).
  - f_equal. ring.
  - apply polar_norm. lra.
Qed.

Lemma outbound_at_edge_leaves :
  fst (new_position outbound_at_edge) >= range_scale outbound_at_edge - 0.5.
Proof.
  rewrite new_position_radial.
  - cbn. lra.
  - reflexivity.
  - cbn. lra.
  - cbn. lra.
Qed.

(** C8: [simulate_movement] never raises; and when its [try] block raises
    [e] (the session being in the Moving state), the tick ends Stopped,
    the status variable has received the error message made from [e] and
    then the message of [stop_movement], and no call of [root.after] has
    been registered. *)
Theorem tick_fault_is_caught (tk : Toolkit) (s : IKO) :
  raised (simulate_movement tk s) = None
  /\ (forall (e : Exn) (s1 : IKO),
        target_moving s = true ->
        simulate_movement_try tk s = Raise e s1 ->
        let s' := state_of (simulate_movement tk s) in
        target_moving s' = false
        /\ info_var s' = msg_stopped :: msg_error e :: info_var s
        /\ root_after s' = root_after s).
Proof.
  unfold simulate_movement, try_except. split.
  - destruct (target_moving s); cbn [negb]; [| reflexivity].
    destruct (simulate_movement_try tk s) as [a s0 | e s0]; reflexivity.
  - intros e s1 Hmoving Htry. rewrite Hmoving, Htry. cbn [negb].
    destruct (simulate_movement_try_raise tk s s1 e Htry) as [Hinfo Hafter].
    rewrite <- Hinfo, <- Hafter. repeat split; reflexivity.
Qed.

Lemma failing_label_raises :
  simulate_movement_try failing_label_toolkit northbound
  = Raise (mkExn "TclError" "invalid command name")
      (set_bearing_var 0
         (set_range_var 6
            (set_target_bearing 0 (set_target_range 6 northbound)))).
Proof.
  rewrite simulate_movement_try_inside;
    rewrite (new_position_due_north northbound) by reflexivity.
  - reflexivity.
  - cbn. lra.
Qed.

Lemma tick_fault_is_caught_witness :
  let s' := state_of (simulate_movement failing_label_toolkit northbound) in
  target_moving s' = false
  /\ info_var s'
     = msg_stopped
         :: msg_error (mkExn "TclError" "invalid command name")
         :: info_var northbound
  /\ root_after s' = root_after northbound.
Proof.
  exact (proj2 (tick_fault_is_caught failing_label_toolkit northbound) _ _
           eq_refl failing_label_raises).
Defined.

(** C1: a tick in the Moving state whose new range is at least
    [range_scale - 0.5] returns without raising and leaves the session
    Stopped; the status variable has received the scope-exit message
    (and, after it, the message of [stop_movement]); the position, the
    trail and the queue of [root.after] are as before the tick. *)
Theorem scope_exit_stops (tk : Toolkit) (s : IKO) :
  target_moving s = true ->
  fst (new_position s) >= range_scale s - 0.5 ->
  let r := simulate_movement tk s in
  raised r = None
  /\ target_moving (state_of r) = false
  /\ info_var (state_of r) = msg_stopped :: msg_left_scope :: info_var s
  /\ In msg_left_scope (info_var (state_of r))
  /\ target_range (state_of r) = target_range s
  /\ target_bearing (state_of r) = target_bearing s
  /\ target_history (state_of r) = target_history s
  /\ root_after (state_of r) = root_after s.
Proof.
  intros Hmoving Hout r. subst r.
  unfold simulate_movement, try_except.
  rewrite Hmoving. cbn [negb].
  rewrite simulate_movement_try_outside by exact Hout.
  cbn [raised state_of].
  repeat split; try reflexivity.
  right; left; reflexivity.
Qed.

Lemma scope_exit_stops_witness :
  let r := simulate_movement quiet_toolkit outbound_at_edge in
  raised r = None
  /\ target_moving (state_of r) = false
  /\ info_var (state_of r)
     = msg_stopped :: msg_left_scope :: info_var outbound_at_edge
  /\ In msg_left_scope (info_var (state_of r))
  /\ target_range (state_of r) = target_range outbound_at_edge
  /\ target_bearing (state_of r) = target_bearing outbound_at_edge
  /\ target_history (state_of r) = target_history outbound_at_edge
  /\ root_after (state_of r) = root_after outbound_at_edge.
Proof.
  apply (scope_exit_stops quiet_toolkit outbound_at_edge).
  - reflexivity.
  - exact outbound_at_edge_leaves.
Defined.

(** A tick in the Moving state whose new range is inside the scope
    commits the new position, whatever the toolkit does afterwards. *)
Lemma tick_commits (tk : Toolkit) (s : IKO) :
  target_moving s = true ->
  fst (new_position s) < range_scale s - 0.5 ->
  let s' := state_of (simulate_movement tk s) in
  target_range s' = fst (new_position s)
  /\ target_bearing s' = snd (new_position s).
Proof.
  intros Hmoving Hin s'. subst s'.
  assert (Hr : published_apart target_range) by published.
  assert (Hb : published_apart target_bearing) by published.
  pose proof (simulate_movement_try_committed target_range tk s Hr
                (fun _ _ => eq_refl) Hin) as Hrange.
  pose proof (simulate_movement_try_committed target_bearing tk s Hb
                (fun _ _ => eq_refl) Hin) as Hbearing.
  cbn [target_range target_bearing set_target_bearing set_target_range]
    in Hrange, Hbearing.
  unfold simulate_movement, try_except. rewrite Hmoving. cbn [negb].
  destruct (simulate_movement_try tk s) as [[] s1 | e s1];
    cbn [state_of] in Hrange, Hbearing |- *.
  - split; assumption.
  - split; [exact Hrange | exact Hbearing].
Qed.

(** C7: one tick in the Moving state from bearing 0, range 5 miles, on
    course 0 at 3600 knots with an interval of 1000 ms, the scope edge
    being further than 6 miles away ([6 < range_scale - 0.5]), computes
    the position (range 6, bearing 0) and leaves the target there,
    whatever the toolkit does. *)
Theorem tick_moves_one_mile_north (tk : Toolkit) (s : IKO) :
  target_moving s = true ->
  target_bearing s = 0 ->
  target_range s = 5 ->
  target_course s = 0 ->
  target_speed s = 3600 ->
  simulation_interval s = 1000%Z ->
  6 < range_scale s - 0.5 ->
  new_position s = (6, 0)
  /\ target_range (state_of (simulate_movement tk s)) = 6
  /\ target_bearing (state_of (simulate_movement tk s)) = 0.
Proof.
  intros Hmoving Hb Hr Hc Hv Hi Hscale.
  pose proof (new_position_due_north s Hb Hr Hc Hv Hi) as Hnew.
  split; [exact Hnew |].
  assert (Hin : fst (new_position s) < range_scale s - 0.5)
    by (rewrite Hnew; exact Hscale).
  destruct (tick_commits tk s Hmoving Hin) as [Hrange Hbearing].
  rewrite Hnew in Hrange, Hbearing.
  split; assumption.
Qed.

Lemma tick_moves_one_mile_north_witness :
  new_position northbound = (6, 0)
  /\ target_range (state_of (simulate_movement quiet_toolkit northbound)) = 6
  /\ target_bearing (state_of (simulate_movement quiet_toolkit northbound))
     = 0.
Proof.
  apply (tick_moves_one_mile_north quiet_toolkit northbound);
    try reflexivity.
  cbn; lra.
Defined.

(** *** The tick keeps the bound of the trail *)

Lemma preserves_refl (I : IKO -> Prop) (s : IKO) : preserves I s s.
Proof. intros H. exact H. Qed.

Lemma preserves_trans (I : IKO -> Prop) (s1 s2 s3 : IKO) :
  preserves I s1 s2 -> preserves I s2 s3 -> preserves I s1 s3.
Proof. unfold preserves. auto. Qed.

(** A step that writes neither the trail nor [trail_length] preserves
    the invariant of the trail. *)
Lemma trail_inv_apart (n : nat) (s s' : IKO) :
  target_history s' = target_history s ->
  trail_length s' = trail_length s ->
  preserves (trail_inv n) s s'.
Proof.
  intros Hh Htl. unfold preserves, trail_inv. rewrite Hh, Htl. trivial.
Qed.

Lemma publish_position_trail_inv (tk : Toolkit) (n : nat) :
  frames (preserves (trail_inv n)) (publish_position tk).
Proof.
  unfold publish_position.
  frame_steps (preserves_refl (trail_inv n)) (preserves_trans (trail_inv n)).
  - intros s. now apply trail_inv_apart.
  - intros s. now apply trail_inv_apart.
  - intros H. now apply add_to_history_inv.
  - intros s.
    destruct (draw_radar_display_frame tk s)
      as (cs & c & p & u & [-> | [e ->]]); now apply trail_inv_apart.
Qed.

Lemma schedule_next_trail_inv (tk : Toolkit) (n : nat) :
  frames (preserves (trail_inv n)) (schedule_next tk).
Proof.
  intros s.
  destruct (schedule_next_cases tk s) as [[_ ->] | [[_ ->] | [e ->]]];
    now apply trail_inv_apart.
Qed.

Lemma simulate_movement_try_trail_inv (tk : Toolkit) (n : nat) :
  frames (preserves (trail_inv n)) (simulate_movement_try tk).
Proof.
  intros s.
  destruct (Rge_dec (fst (new_position s)) (range_scale s - 0.5))
    as [Hout | Hin].
  - rewrite simulate_movement_try_outside by exact Hout.
    now apply trail_inv_apart.
  - apply Rnot_ge_lt in Hin.
    rewrite simulate_movement_try_inside by exact Hin.
    set (s2 := set_target_bearing _ _).
    apply (preserves_trans _ s s2); [now apply trail_inv_apart |].
    assert (Hf : frames (preserves (trail_inv n))
                   (bind (publish_position tk) (fun _ => schedule_next tk))).
    { apply (frames_bind _ (preserves_trans (trail_inv n))).
      - apply publish_position_trail_inv.
      - intros _. apply schedule_next_trail_inv. }
    apply Hf.
Qed.

(** Every tick, whatever the toolkit does, leaves the trail within its
    capacity. *)
Lemma simulate_movement_trail_inv (tk : Toolkit) (n : nat) (s : IKO) :
  trail_inv n s -> trail_inv n (state_of (simulate_movement tk s)).
Proof.
  revert s.
  enough (H : frames (preserves (trail_inv n)) (simulate_movement tk))
    by exact H.
  intros s. unfold simulate_movement.
  destruct (target_moving s); cbn [negb]; [| apply preserves_refl].
  revert s.
  enough (H : frames (preserves (trail_inv n))
                (try_except (simulate_movement_try tk)
                   (fun e =>
                      bind (info_var_set (msg_error e))
                        (fun _ => stop_movement))))
    by exact H.
  unfold stop_movement, info_var_set.
  frame_steps (preserves_refl (trail_inv n)) (preserves_trans (trail_inv n));
    try now apply trail_inv_apart.
  apply simulate_movement_try_trail_inv.
Qed.

(** *** The range scale is the same throughout the session *)

(** An attribute that none of the statements of a tick writes has, after
    the tick, the value it had before. *)
Lemma simulate_movement_keeps {A} (f : IKO -> A) (tk : Toolkit) :
  published_apart f ->
  (forall v s, f (set_target_range v s) = f s) ->
  (forall v s, f (set_target_bearing v s) = f s) ->
  (forall v s, f (set_root_after v s) = f s) ->
  (forall v s, f (set_info_var v s) = f s) ->
  (forall v s, f (set_target_moving v s) = f s) ->
  frames (keeps f) (simulate_movement tk).
Proof.
  intros Hpub Hrange Hbearing Hafter Hinfo Hmoving s.
  unfold keeps, simulate_movement, try_except.
  destruct (target_moving s); cbn [negb]; [| reflexivity].
  assert (Htry : f (state_of (simulate_movement_try tk s)) = f s).
  { destruct (Rge_dec (fst (new_position s)) (range_scale s - 0.5))
      as [Hout | Hin].
    - rewrite simulate_movement_try_outside by exact Hout.
      cbn [state_of]. now rewrite Hinfo, Hmoving, Hinfo.
    - apply Rnot_ge_lt in Hin.
      now apply simulate_movement_try_keeps. }
  destruct (simulate_movement_try tk s) as [[] s1 | e s1];
    cbn [state_of] in Htry.
  - exact Htry.
  - cbv beta iota delta [state_of bind info_var_set stop_movement modify].
    now rewrite Hinfo, Hmoving, Hinfo.
Qed.

(** [range_scale] is 24.0 at start-up, and neither a tick, nor a change
    of the trail length, nor a recorded fix writes it. *)
Lemma range_scale_init (w h : Z) (g : Random.state) :
  range_scale (init w h g) = 24.0.
Proof. reflexivity. Qed.

Lemma simulate_movement_range_scale (tk : Toolkit) (s : IKO) :
  range_scale (state_of (simulate_movement tk s)) = range_scale s.
Proof.
  apply (simulate_movement_keeps range_scale tk); try published;
    reflexivity.
Qed.

Lemma on_trail_length_change_range_scale (tk : Toolkit) (value : R)
    (s : IKO) :
  range_scale (state_of (on_trail_length_change tk value s)) = range_scale s.
Proof.
  revert s.
  enough (H : frames (keeps range_scale) (on_trail_length_change tk value))
    by exact H.
  unfold on_trail_length_change.
  frame_steps (keeps_refl range_scale) (keeps_trans range_scale).
  - reflexivity.
  - intros s. destruct (Deque.new (trail_length s)); reflexivity.
  - now apply draw_radar_display_keeps.
Qed.

Lemma record_fixes_range_scale (fs : list TargetFix) :
  forall s, range_scale (record_fixes fs s) = range_scale s.
Proof.
  induction fs as [| [[b r] e] fs IH]; intros s; cbn [record_fixes fold_left].
  - reflexivity.
  - fold (record_fixes fs (record_fix (b, r, e) s)). rewrite IH.
    unfold record_fix.
    now rewrite (add_to_history_keeps range_scale (fun _ _ => eq_refl)).
Qed.

(** *** Stopped to Moving *)

(** From Stopped, [start_movement] latches course and speed, reports the
    start and runs the first tick at once; in the Moving state it does
    nothing. *)
Lemma start_movement_starts (tk : Toolkit) (s : IKO) :
  start_movement tk s
  = if target_moving s then Ok tt s
    else
      simulate_movement tk
        (set_info_var (msg_started :: info_var s)
           (set_target_speed_current (target_speed s)
              (set_target_course_current (target_course s)
                 (set_target_moving true s)))).
Proof.
  unfold start_movement. destruct (target_moving s); reflexivity.
Qed.

(** *** The tick re-arms itself while the target stays inside the scope *)

Lemma quiet_redraw (s : IKO) :
  range_scale s <> 0 ->
  updating_size s = false ->
  exists s', draw_radar_display quiet_toolkit s = Ok tt s'.
Proof.
  intros Hrs Hflag.
  unfold draw_radar_display, update_canvas_size, try_finally, bind, tk_call,
    modify, gets, ret.
  cbn [tk_raises quiet_toolkit].
  rewrite Hflag.
  cbn [updating_size canvas_size range_scale set_updating_size
       set_canvas_size set_center set_pixel_per_mile].
  destruct (Z.eqb _ _);
    cbn [updating_size canvas_size range_scale set_updating_size
         set_canvas_size set_center set_pixel_per_mile];
    rewrite div_defined by exact Hrs;
    eapply ex_intro; reflexivity.
Qed.

Lemma quiet_publish (s : IKO) :
  range_scale s <> 0 ->
  updating_size s = false ->
  exists s', publish_position quiet_toolkit s = Ok tt s'.
Proof.
  intros Hrs Hflag.
  unfold publish_position, bind, range_var_set, bearing_var_set, modify,
    tk_call.
  cbn [tk_raises quiet_toolkit].
  apply quiet_redraw.
  - rewrite (add_to_history_keeps range_scale (fun _ _ => eq_refl)).
    exact Hrs.
  - rewrite (add_to_history_keeps updating_size (fun _ _ => eq_refl)).
    exact Hflag.
Qed.

(** With a toolkit that does not fail, a tick inside the scope keeps the
    session Moving and registers exactly one further tick. *)
Lemma tick_rearms (s : IKO) :
  target_moving s = true ->
  updating_size s = false ->
  fst (new_position s) < range_scale s - 0.5 ->
  let r := simulate_movement quiet_toolkit s in
  raised r = None
  /\ target_moving (state_of r) = true
  /\ root_after (state_of r)
     = root_after s ++ [(simulation_interval s, CbSimulateMovement)].
Proof.
  intros Hmoving Hflag Hin r. subst r.
  assert (Hrs : range_scale s <> 0).
  { assert (H0 : 0 <= fst (new_position s))
      by (unfold new_position; cbn [fst]; apply sqrt_pos).
    lra. }
  unfold simulate_movement, try_except. rewrite Hmoving. cbn [negb].
  rewrite simulate_movement_try_inside by exact Hin.
  set (s2 := set_target_bearing _ _).
  destruct (quiet_publish s2 Hrs Hflag) as [s3 Hpub].
  assert (Hm : target_moving s3 = true).
  { pose proof (publish_position_keeps target_moving quiet_toolkit
                  ltac:(published) s2) as H.
    rewrite Hpub in H. exact (eq_trans H Hmoving). }
  assert (Ha : root_after s3 = root_after s).
  { pose proof (publish_position_keeps root_after quiet_toolkit
                  ltac:(published) s2) as H.
    rewrite Hpub in H. exact H. }
  assert (Hi : simulation_interval s3 = simulation_interval s).
  { pose proof (publish_position_keeps simulation_interval quiet_toolkit
                  ltac:(published) s2) as H.
    rewrite Hpub in H. exact H. }
  unfold bind. rewrite Hpub.
  unfold schedule_next, root_after_call, bind, tk_call, modify.
  rewrite Hm. cbn [tk_raises quiet_toolkit raised state_of].
  cbn [root_after target_moving set_root_after].
  rewrite Hm, Ha, Hi. repeat split; reflexivity.
Qed.

(** ** Geometry *)











(** At range 0 every bearing projects onto the scope centre. *)
Lemma projection_at_centre (s : IKO) (b : R) :
  polar_to_cartesian s b 0 = (IZR (center s), IZR (center s)).
Proof.
  unfold polar_to_cartesian. f_equal; ring.
Qed.


(** The same with the inverse of the specification: the centre comes
    back as bearing 0, not as bearing 90. *)
Lemma inverse_project_at_centre :
  Spec.inverse_project northbound (polar_to_cartesian northbound 90 0)
  = (0, 0).
Proof.
  rewrite projection_at_centre. unfold Spec.inverse_project. cbn [fst snd].
  replace ((IZR (center northbound) - IZR (center northbound))
           / pixel_per_mile northbound) with 0
    by (cbn; field; lra).
  unfold Py.atan2.
  destruct (Rlt_dec 0 0) as [H | _]; [lra |].
  replace (Py.degrees 0) with 0 by (unfold Py.degrees; lra).
  rewrite fmod_small by lra.
  replace (0 ^ 2 + 0 ^ 2) with 0 by ring.
  rewrite sqrt_0. reflexivity.
Qed.


(** * Further properties *)

(** ** Projection *)







(** ** Canvas geometry *)

(** Reduces attribute reads of written states, and nothing else. *)
Ltac fields :=
  cbn [canvas_size center range_scale pixel_per_mile target_range
       target_bearing aspect_angle target_epr target_length target_width
       target_history trail_length coastline_points target_moving
       target_course target_speed simulation_interval
       target_course_current target_speed_current updating_size info_var
       range_var bearing_var root_after
       set_canvas_size set_center set_pixel_per_mile set_target_range
       set_target_bearing set_target_epr set_target_history
       set_trail_length set_coastline_points set_target_moving
       set_target_course_current set_target_speed_current
       set_updating_size set_info_var set_range_var set_bearing_var
       set_root_after state_of raised].

Ltac fields_in H :=
  cbn [canvas_size center range_scale pixel_per_mile target_range
       target_bearing aspect_angle target_epr target_length target_width
       target_history trail_length coastline_points target_moving
       target_course target_speed simulation_interval
       target_course_current target_speed_current updating_size info_var
       range_var bearing_var root_after
       set_canvas_size set_center set_pixel_per_mile set_target_range
       set_target_bearing set_target_epr set_target_history
       set_trail_length set_coastline_points set_target_moving
       set_target_course_current set_target_speed_current
       set_updating_size set_info_var set_range_var set_bearing_var
       set_root_after state_of raised] in H.

Lemma bind_modify {B} (f : IKO -> IKO) (k : unit -> M B) (s : IKO) :
  bind (modify f) k s = k tt (f s).
Proof. reflexivity. Qed.

Lemma bind_tk_call {B} (tk : Toolkit) (c : TkCall) (k : unit -> M B)
    (s : IKO) :
  bind (tk_call tk c) k s
  = match tk_raises tk c s with
    | Some e => Raise e s
    | None => k tt s
    end.
Proof.
  unfold bind, tk_call. destruct (tk_raises tk c s); reflexivity.
Qed.

Lemma bind_gets {A B} (f : IKO -> A) (k : A -> M B) (s : IKO) :
  bind (gets f) k s = k (f s) s.
Proof. reflexivity. Qed.

(** X3: [update_canvas_size] never leaves its re-entrancy flag set: from
    a clear flag it ends with a clear flag, whether it returns or a
    toolkit call or the division raises; with the flag set it returns at
    once and writes nothing. *)
Theorem update_canvas_size_flag (tk : Toolkit) (s : IKO) :
  (updating_size s = false ->
   updating_size (state_of (update_canvas_size tk s)) = false)
  /\ (updating_size s = true -> update_canvas_size tk s = Ok tt s).
Proof.
  unfold update_canvas_size. split; intros Hflag; rewrite Hflag.
  - rewrite bind_modify. unfold try_finally.
    match goal with |- context [match ?body ?st with _ => _ end] =>
      destruct (body st) as [a s' | e s'] end; reflexivity.
  - reflexivity.
Qed.

Lemma update_canvas_size_flag_witness :
  updating_size (state_of (update_canvas_size quiet_toolkit northbound))
  = false.
Proof.
  apply (proj1 (update_canvas_size_flag quiet_toolkit northbound)).
  reflexivity.
Defined.

(** What [update_canvas_size] leaves when it returns. *)
Lemma update_canvas_size_returns (tk : Toolkit) (s s' : IKO) :
  updating_size s = false ->
  update_canvas_size tk s = Ok tt s' ->
  (220 <= canvas_size s')%Z
  /\ center s' = (canvas_size s' / 2)%Z
  /\ pixel_per_mile s'
     = Rmax 1.0 (IZR (canvas_size s' / 2 - 40) / range_scale s')
  /\ 1 <= pixel_per_mile s'
  /\ range_scale s' = range_scale s
  /\ range_scale s <> 0.
Proof.
  intros Hflag. unfold update_canvas_size. rewrite Hflag.
  rewrite bind_modify. unfold try_finally.
  rewrite bind_tk_call.
  destruct (tk_raises tk CanvasWinfo _) as [e |]; [discriminate |].
  rewrite !bind_gets.
  set (s1 := set_updating_size true s).
  set (new_size :=
         Z.max 220
           (Z.min (Z.max 100 (winfo_width tk s1))
                  (Z.max 100 (winfo_height tk s1)) - 10)).
  assert (Hsize : (220 <= new_size)%Z) by (unfold new_size; lia).
  unfold bind at 1.
  destruct (Z.eqb_spec new_size (canvas_size s1)) as [Heq | Hne].
  - unfold ret. rewrite bind_modify.
    unfold Py.div.
    destruct (Req_dec_T _ 0) as [H0 | Hrs]; [discriminate |].
    intros H. inversion H; subst s'; clear H. fields.
    fields_in Hrs. fields_in Heq.
    repeat split; try reflexivity; try assumption.
    + rewrite <- Heq. exact Hsize.
    + eapply Rle_trans; [| apply Rmax_l]. lra.
  - rewrite bind_modify. cbv beta. unfold tk_call at 1.
    destruct (tk_raises tk CanvasConfig _) as [e |]; [discriminate |].
    rewrite bind_modify.
    unfold Py.div.
    destruct (Req_dec_T _ 0) as [H0 | Hrs]; [discriminate |].
    intros H. inversion H; subst s'; clear H. fields.
    fields_in Hrs.
    repeat split; try reflexivity; try assumption.
    eapply Rle_trans; [| apply Rmax_l]. lra.
Qed.

(** X4: when [update_canvas_size], entered with a clear flag, returns,
    the canvas is at least 220 wide, [center] is half of it, and
    [pixel_per_mile] is [max(1.0, (canvas_size // 2 - 40) / range_scale)],
    so at least 1; [range_scale] is not zero and is as before. *)
Theorem update_canvas_size_geometry (tk : Toolkit) (s s' : IKO) :
  updating_size s = false ->
  update_canvas_size tk s = Ok tt s' ->
  (220 <= canvas_size s')%Z
  /\ center s' = (canvas_size s' / 2)%Z
  /\ pixel_per_mile s'
     = Rmax 1.0 (IZR (canvas_size s' / 2 - 40) / range_scale s')
  /\ 1 <= pixel_per_mile s'
  /\ range_scale s' = range_scale s
  /\ range_scale s <> 0.
Proof.
  exact (update_canvas_size_returns tk s s').
Qed.

Lemma quiet_resize_northbound :
  update_canvas_size quiet_toolkit northbound
  = Ok tt
      (set_updating_size false
         (set_pixel_per_mile (Rmax 1.0 (IZR (790 / 2 - 40) / 24.0))
            (set_center (790 / 2)
               (set_canvas_size 790 (set_updating_size true northbound))))).
Proof.
  unfold update_canvas_size, try_finally, bind, tk_call, gets, ret, modify.
  cbn -[Py.div Rmax IZR Z.div Z.sub].
  change (Z.max 220 (800 - 10) =? 780)%Z with false. cbv beta iota.
  change (Z.max 220 (800 - 10))%Z with 790%Z.
  fields. rewrite div_defined by (unfold northbound; fields; lra).
  reflexivity.
Qed.

Lemma update_canvas_size_geometry_witness :
  exists s',
    update_canvas_size quiet_toolkit northbound = Ok tt s'
    /\ (220 <= canvas_size s')%Z
    /\ center s' = (canvas_size s' / 2)%Z
    /\ pixel_per_mile s'
       = Rmax 1.0 (IZR (canvas_size s' / 2 - 40) / range_scale s')
    /\ 1 <= pixel_per_mile s'
    /\ range_scale s' = range_scale northbound
    /\ range_scale northbound <> 0.
Proof.
  eapply ex_intro. split; [exact quiet_resize_northbound |].
  apply (update_canvas_size_geometry quiet_toolkit northbound);
    [reflexivity | exact quiet_resize_northbound].
Defined.

Lemma half_canvas (cs : Z) :
  (220 <= cs)%Z -> 110 <= IZR (cs / 2) /\ 2 * IZR (cs / 2) <= IZR cs.
Proof.
  intros H. split.
  - apply IZR_le. apply Z.div_le_lower_bound; lia.
  - rewrite <- mult_IZR. apply IZR_le. apply Z.mul_div_le. lia.
Qed.

(** A redraw that returns has resized the canvas. *)
Lemma draw_radar_display_returns (tk : Toolkit) (s s' : IKO) :
  draw_radar_display tk s = Ok tt s' -> update_canvas_size tk s = Ok tt s'.
Proof.
  unfold draw_radar_display. rewrite bind_tk_call.
  destruct (tk_raises tk CanvasDeleteAll s) as [e |]; [discriminate |].
  unfold bind.
  destruct (update_canvas_size tk s) as [[] s2 | e s2]; [| discriminate].
  unfold tk_call.
  destruct (tk_raises tk CanvasDrawScene s2) as [e |]; [discriminate |].
  intros H. inversion H. reflexivity.
Qed.

(** The attributes that [__init__] sets before its first redraw. *)
Lemma init_attributes (screen_width screen_height : Z) (g : Random.state) :
  let s := init screen_width screen_height g in
  updating_size s = false
  /\ range_scale s = 24.0
  /\ target_moving s = false
  /\ root_after s = []
  /\ target_history s = Deque.mk 30 []
  /\ List.length (coastline_points s) = 40%nat.
Proof.
  intros s. subst s. unfold init. fields.
  repeat split; reflexivity.
Qed.

(** X5: the session that [__init__] leaves after its first redraw, for
    every screen size, random source and toolkit behaviour, is Stopped
    with nothing scheduled, a fresh trail of capacity 30, the range
    scale 24.0 and a coastline of 40 vertices; and when the redraw has
    returned, the canvas is at least 220 wide, [center] is half of it
    and [pixel_per_mile] is [(canvas_size // 2 - 40) / 24.0], at least
    1. *)
Theorem startup_session (tk : Toolkit) (screen_width screen_height : Z)
    (g : Random.state) :
  let r := startup tk screen_width screen_height g in
  let s := state_of r in
  target_moving s = false
  /\ root_after s = []
  /\ target_history s = Deque.mk 30 []
  /\ range_scale s = 24.0
  /\ List.length (coastline_points s) = 40%nat
  /\ (raised r = None ->
      (220 <= canvas_size s)%Z
      /\ center s = (canvas_size s / 2)%Z
      /\ pixel_per_mile s = IZR (canvas_size s / 2 - 40) / 24.0
      /\ 1 <= pixel_per_mile s).
Proof.
  intros r s. subst s r. unfold startup.
  destruct (init_attributes screen_width screen_height g)
    as (Hflag & Hrs & Hmoving & Hafter & Htrail & Hcoast).
  set (s0 := init screen_width screen_height g) in *. clearbody s0.
  assert (K : forall A (f : IKO -> A),
             (forall cs c p u s, f (redisplayed cs c p u s) = f s) ->
             f (state_of (draw_radar_display tk s0)) = f s0).
  { intros A f Hf. apply (draw_radar_display_keeps f tk Hf). }
  rewrite (K _ target_moving (fun _ _ _ _ _ => eq_refl)).
  rewrite (K _ root_after (fun _ _ _ _ _ => eq_refl)).
  rewrite (K _ target_history (fun _ _ _ _ _ => eq_refl)).
  rewrite (K _ range_scale (fun _ _ _ _ _ => eq_refl)).
  rewrite (K _ coastline_points (fun _ _ _ _ _ => eq_refl)).
  repeat (split; [assumption |]).
  intros Hret.
  destruct (draw_radar_display tk s0) as [[] s1 | e s1] eqn:Hdraw;
    [| discriminate Hret].
  cbn [state_of].
  apply draw_radar_display_returns in Hdraw.
  destruct (update_canvas_size_returns tk s0 s1 Hflag Hdraw)
    as (Hcs & Hc & Hp & H1 & Hrs' & _).
  rewrite Hrs', Hrs in Hp.
  destruct (half_canvas _ Hcs) as [Hhalf _].
  assert (Hq : 1.0 <= IZR (canvas_size s1 / 2 - 40) / 24.0)
    by (rewrite minus_IZR; lra).
  rewrite (Rmax_right _ _ Hq) in Hp.
  repeat split; assumption.
Qed.

Lemma startup_session_witness :
  let r := startup quiet_toolkit 1920 1080 middle_draws in
  raised r = None
  /\ (220 <= canvas_size (state_of r))%Z
  /\ center (state_of r) = (canvas_size (state_of r) / 2)%Z
  /\ pixel_per_mile (state_of r)
     = IZR (canvas_size (state_of r) / 2 - 40) / 24.0
  /\ 1 <= pixel_per_mile (state_of r).
Proof.
  intros r.
  assert (Hret : raised r = None).
  { subst r. unfold startup.
    destruct (quiet_redraw (init 1920 1080 middle_draws)) as [s' Hs'].
    - rewrite range_scale_init. lra.
    - reflexivity.
    - rewrite Hs'. reflexivity. }
  split; [exact Hret |].
  apply (proj2 (proj2 (proj2 (proj2 (proj2
           (startup_session quiet_toolkit 1920 1080 middle_draws)))))).
  exact Hret.
Defined.

(** ** Kinematics *)







(** X8: a tick, in any state and whatever the toolkit does, writes none
    of the parameters of the target and of the simulation: course,
    speed, interval, the latched course and speed, EPR, aspect angle,
    length, width, range scale, trail length and coastline are after the
    tick what they were before. *)
Theorem tick_leaves_parameters (tk : Toolkit) (s : IKO) :
  let s' := state_of (simulate_movement tk s) in
  target_course s' = target_course s
  /\ target_speed s' = target_speed s
  /\ simulation_interval s' = simulation_interval s
  /\ target_course_current s' = target_course_current s
  /\ target_speed_current s' = target_speed_current s
  /\ target_epr s' = target_epr s
  /\ aspect_angle s' = aspect_angle s
  /\ target_length s' = target_length s
  /\ target_width s' = target_width s
  /\ range_scale s' = range_scale s
  /\ trail_length s' = trail_length s
  /\ coastline_points s' = coastline_points s.
Proof.
  intros s'. subst s'.
  assert (K : forall A (f : IKO -> A),
             published_apart f ->
             (forall v s, f (set_target_range v s) = f s) ->
             (forall v s, f (set_target_bearing v s) = f s) ->
             (forall v s, f (set_root_after v s) = f s) ->
             (forall v s, f (set_info_var v s) = f s) ->
             (forall v s, f (set_target_moving v s) = f s) ->
             f (state_of (simulate_movement tk s)) = f s).
  { intros A f Hpub H1 H2 H3 H4 H5.
    apply (simulate_movement_keeps f tk Hpub H1 H2 H3 H4 H5). }
  repeat split; apply K; try published; reflexivity.
Qed.

(** [publish_position] first copies the position into the slider
    variables, and nothing after that writes them. *)
Lemma publish_position_vars (tk : Toolkit) (s : IKO) :
  range_var (state_of (publish_position tk s)) = target_range s
  /\ bearing_var (state_of (publish_position tk s)) = target_bearing s.
Proof.
  set (rest :=
         bind (tk_call tk RangeValueLabelConfigure) (fun _ =>
         bind (tk_call tk BearingValueLabelConfigure) (fun _ =>
         bind (modify add_to_history) (fun _ => draw_radar_display tk)))).
  assert (Hunfold :
            publish_position tk s
            = rest (set_bearing_var (target_bearing s)
                      (set_range_var (target_range s) s)))
    by reflexivity.
  assert (Hkeep : forall A (f : IKO -> A),
             (forall d s, f (set_target_history d s) = f s) ->
             (forall cs c p u s, f (redisplayed cs c p u s) = f s) ->
             frames (keeps f) rest).
  { intros A f Hh Hd. unfold rest.
    frame_steps (keeps_refl f) (keeps_trans f).
    - now apply add_to_history_keeps.
    - now apply draw_radar_display_keeps. }
  rewrite Hunfold. split.
  - rewrite (Hkeep _ range_var (fun _ _ => eq_refl)
               (fun _ _ _ _ _ => eq_refl)).
    reflexivity.
  - rewrite (Hkeep _ bearing_var (fun _ _ => eq_refl)
               (fun _ _ _ _ _ => eq_refl)).
    reflexivity.
Qed.

(** X9: a tick that starts in the Moving state ends Stopped exactly when
    the new range is at least [range_scale - 0.5] or the [try] block
    raised; otherwise the session is still Moving. *)
Theorem tick_stops_iff (tk : Toolkit) (s : IKO) :
  target_moving s = true ->
  (target_moving (state_of (simulate_movement tk s)) = false
   <-> fst (new_position s) >= range_scale s - 0.5
       \/ raised (simulate_movement_try tk s) <> None).
Proof.
  intros Hmoving.
  unfold simulate_movement, try_except. rewrite Hmoving. cbn [negb].
  destruct (Rge_dec (fst (new_position s)) (range_scale s - 0.5))
    as [Hout | Hin].
  - rewrite simulate_movement_try_outside by exact Hout.
    split; [intros _; left; exact Hout | reflexivity].
  - pose proof (Rnot_ge_lt _ _ Hin) as Hlt.
    pose proof (simulate_movement_try_keeps target_moving tk s
                  ltac:(published) (fun _ _ => eq_refl)
                  (fun _ _ => eq_refl) (fun _ _ => eq_refl) Hlt) as Hkeep.
    destruct (simulate_movement_try tk s) as [[] s1 | e s1];
      cbn [state_of raised] in *.
    + split.
      * intros Hstopped. congruence.
      * intros [Hout | Hraised]; [contradiction | congruence].
    + split; [intros _; right; discriminate | reflexivity].
Qed.

Lemma tick_stops_iff_witness :
  target_moving (state_of (simulate_movement quiet_toolkit outbound_at_edge))
  = false
  <-> fst (new_position outbound_at_edge) >= range_scale outbound_at_edge - 0.5
      \/ raised (simulate_movement_try quiet_toolkit outbound_at_edge) <> None.
Proof.
  apply (tick_stops_iff quiet_toolkit outbound_at_edge). reflexivity.
Defined.

(** X10: with a toolkit that does not fail, a tick in the Moving state
    whose new range is inside the scope returns without raising, commits
    the new position, shows it in the slider variables, leaves the status
    variable alone, keeps the session Moving and registers exactly one
    further tick, [simulation_interval] milliseconds ahead. *)
Theorem quiet_tick_inside (s : IKO) :
  target_moving s = true ->
  updating_size s = false ->
  fst (new_position s) < range_scale s - 0.5 ->
  let r := simulate_movement quiet_toolkit s in
  raised r = None
  /\ target_range (state_of r) = fst (new_position s)
  /\ target_bearing (state_of r) = snd (new_position s)
  /\ range_var (state_of r) = fst (new_position s)
  /\ bearing_var (state_of r) = snd (new_position s)
  /\ info_var (state_of r) = info_var s
  /\ target_moving (state_of r) = true
  /\ root_after (state_of r)
     = root_after s ++ [(simulation_interval s, CbSimulateMovement)].
Proof.
  intros Hmoving Hflag Hin r. subst r.
  destruct (tick_rearms s Hmoving Hflag Hin) as (Hraised & Hm & Hafter).
  destruct (tick_commits quiet_toolkit s Hmoving Hin) as [Hrange Hbearing].
  pose proof (simulate_movement_try_keeps info_var quiet_toolkit s
                ltac:(published) (fun _ _ => eq_refl)
                (fun _ _ => eq_refl) (fun _ _ => eq_refl) Hin) as Hinfo.
  assert (Hvars :
            range_var (state_of (simulate_movement_try quiet_toolkit s))
            = fst (new_position s)
            /\ bearing_var (state_of (simulate_movement_try quiet_toolkit s))
               = snd (new_position s)).
  { rewrite simulate_movement_try_inside by exact Hin.
    set (s2 := set_target_bearing _ _).
    destruct (quiet_publish s2) as [s3 Hpub].
    - unfold s2. fields.
      assert (H0 : 0 <= fst (new_position s))
        by (unfold new_position; cbn [fst]; apply sqrt_pos).
      lra.
    - exact Hflag.
    - assert (Hs3 : range_var s3 = fst (new_position s)
                    /\ bearing_var s3 = snd (new_position s)).
      { destruct (publish_position_vars quiet_toolkit s2) as [K1 K2].
        rewrite Hpub in K1, K2. cbn [state_of] in K1, K2.
        rewrite K1, K2. unfold s2. fields. split; reflexivity. }
      unfold bind. rewrite Hpub.
      destruct (schedule_next_cases quiet_toolkit s3)
        as [[_ ->] | [[_ ->] | [e ->]]]; fields; exact Hs3. }
  unfold simulate_movement, try_except in *.
  rewrite Hmoving in *. cbn [negb] in *.
  destruct (simulate_movement_try quiet_toolkit s) as [[] s1 | e s1];
    cbn [state_of raised] in *.
  - destruct Hvars as [Hv1 Hv2]. repeat split; assumption.
  - discriminate Hm.
Qed.

Lemma quiet_tick_inside_witness :
  let r := simulate_movement quiet_toolkit northbound in
  raised r = None
  /\ target_range (state_of r) = fst (new_position northbound)
  /\ target_bearing (state_of r) = snd (new_position northbound)
  /\ range_var (state_of r) = fst (new_position northbound)
  /\ bearing_var (state_of r) = snd (new_position northbound)
  /\ info_var (state_of r) = info_var northbound
  /\ target_moving (state_of r) = true
  /\ root_after (state_of r)
     = root_after northbound
       ++ [(simulation_interval northbound, CbSimulateMovement)].
Proof.
  apply (quiet_tick_inside northbound).
  - reflexivity.
  - reflexivity.
  - rewrite (new_position_due_north northbound) by reflexivity.
    cbn. lra.
Defined.

(** ** The scope on the canvas *)

(** X11: after a resize that returns, with a range scale of at most 70
    miles (it is 24.0), every point within the range scale is projected
    onto the canvas, at least 40 pixels from each edge. *)
Theorem in_scope_on_canvas (tk : Toolkit) (s s' : IKO) (b r : R) :
  updating_size s = false ->
  update_canvas_size tk s = Ok tt s' ->
  0 < range_scale s <= 70 ->
  0 <= r <= range_scale s ->
  let p := polar_to_cartesian s' b r in
  40 <= fst p <= IZR (canvas_size s') - 40
  /\ 40 <= snd p <= IZR (canvas_size s') - 40.
Proof.
  intros Hflag Hret Hrs Hr p. subst p.
  destruct (update_canvas_size_returns tk s s' Hflag Hret)
    as (Hcs & Hc & Hp & _ & Hrs' & _).
  destruct (half_canvas _ Hcs) as [Hhalf Hdouble].
  unfold polar_to_cartesian. cbn [fst snd]. rewrite Hp, Hc, Hrs'.
  rewrite minus_IZR.
  set (c := IZR (canvas_size s' / 2)) in *.
  set (a := Py.radians (90 - b)).
  assert (Hq : 1.0 <= (c - 40) / range_scale s).
  { apply Rmult_le_reg_r with (range_scale s); [lra |].
    unfold Rdiv. rewrite Rmult_assoc, Rinv_l by lra. lra. }
  rewrite (Rmax_right _ _ Hq).
  assert (Hd : 0 <= r * ((c - 40) / range_scale s) <= c - 40).
  { split.
    - apply Rmult_le_pos; lra.
    - apply Rle_trans with (range_scale s * ((c - 40) / range_scale s)).
      + apply Rmult_le_compat_r; lra.
      + right. field. lra. }
  set (d := r * ((c - 40) / range_scale s)) in *.
  pose proof (COS_bound a) as [Hc1 Hc2].
  pose proof (SIN_bound a) as [Hs1 Hs2].
  assert (Hx : - d <= d * cos a <= d) by (split; nra).
  assert (Hy : - d <= d * sin a <= d) by (split; nra).
  lra.
Qed.

Lemma in_scope_on_canvas_witness :
  exists s',
    update_canvas_size quiet_toolkit northbound = Ok tt s'
    /\ let p := polar_to_cartesian s' 40 8 in
       40 <= fst p <= IZR (canvas_size s') - 40
       /\ 40 <= snd p <= IZR (canvas_size s') - 40.
Proof.
  eapply ex_intro. split; [exact quiet_resize_northbound |].
  apply (in_scope_on_canvas quiet_toolkit northbound);
    [reflexivity | exact quiet_resize_northbound | cbn; lra | cbn; lra].
Defined.

(** ** Stale ticks and bad trail lengths *)


Lemma int_negative (value : R) : value <= -1 -> (Py.int value <= -1)%Z.
Proof.
  intros Hv. unfold Py.int.
  destruct (Rle_dec 0 value) as [Hp | _]; [lra |].
  unfold Zceil.
  assert (H : (1 <= Zfloor (- value))%Z) by (apply Zfloor_lub; lra).
  lia.
Qed.

(** X13: a trail length between [-2^63] and -1 makes
    [on_trail_length_change] raise [ValueError] from [deque]:
    [trail_length] is already written and negative, while the trail
    itself, its label and the display are left as they were.  (Below
    [-2^63] the capacity does not fit the index type of [deque], which
    raises another exception.) *)
Theorem negative_trail_length_raises (tk : Toolkit) (value : R) (s : IKO) :
  -9223372036854775808 <= value <= -1 ->
  on_trail_length_change tk value s
  = Raise (ValueError "maxlen must be non-negative")
      (set_trail_length (Py.int value) s)
  /\ (Py.int value < 0)%Z.
Proof.
  intros [_ Hv]. pose proof (int_negative value Hv) as Hi.
  split; [| lia].
  unfold on_trail_length_change. rewrite bind_modify.
  unfold bind at 1. fields. unfold Deque.new.
  destruct (Z.ltb_spec (Py.int value) 0) as [_ | Hge]; [reflexivity | lia].
Qed.

Lemma negative_trail_length_raises_witness :
  on_trail_length_change quiet_toolkit (-1) northbound
  = Raise (ValueError "maxlen must be non-negative")
      (set_trail_length (Py.int (-1)) northbound)
  /\ (Py.int (-1) < 0)%Z.
Proof.
  apply (negative_trail_length_raises quiet_toolkit (-1) northbound). lra.
Defined.

(** ** Draws and bearings of the coastline *)

Lemma coastline_loop_draws (s : IKO) (base_dir : R) (idx : list nat) :
  forall (points : list (R * R)) (g : Random.state),
    snd (coastline_loop s base_dir idx points g)
    = Random.mk (Random.stream g)
        (Random.cursor g + 2 * List.length idx).
Proof.
  induction idx as [| i idx IH]; intros points g; cbn [coastline_loop].
  - unfold Random.ret. cbn [snd List.length]. destruct g as [st c].
    cbn [Random.stream Random.cursor]. f_equal. lia.
  - unfold Random.uniform. unfold Random.bind, Random.random, Random.ret.
    cbv beta iota zeta. rewrite IH.
    cbn [Random.stream Random.cursor List.length]. f_equal. lia.
Qed.

(** X14: [generate_coastline] takes exactly 81 draws from the random
    source (one for the direction, two for each of the 40 vertices) and
    nothing else from it. *)
Theorem generate_coastline_draws (s : IKO) (g : Random.state) :
  snd (generate_coastline s g)
  = Random.mk (Random.stream g) (Random.cursor g + 81).
Proof.
  unfold generate_coastline, Random.uniform.
  unfold Random.bind, Random.random, Random.ret.
  cbv beta iota.
  match goal with |- context [coastline_loop s ?b ?idx [] ?g'] =>
    pose proof (coastline_loop_draws s b idx [] g') as Hdraws;
    destruct (coastline_loop s b idx [] g') as [points g'']
  end.
  cbn [snd] in *. rewrite Hdraws.
  cbn [Random.stream Random.cursor]. rewrite length_seq.
  unfold segments. f_equal. lia.
Qed.








(** ** The signature of a receding target *)

(** X16: the angular width does not grow with the range: of two targets
    that differ only in range, the farther one is not drawn wider. *)
Theorem angular_width_antitone_in_range (s : IKO) (r1 r2 : R) :
  r1 <= r2 ->
  calculate_angular_width (set_target_range r2 s)
  <= calculate_angular_width (set_target_range r1 s).
Proof.
  intros Hr. unfold calculate_angular_width. fields.
  apply Rle_max_compat_l, Rle_min_compat_l.
  apply Rmult_le_compat_r; [lra |].
  unfold Py.degrees.
  apply Rmult_le_compat_r.
  { apply Rlt_le, Rdiv_lt_0_compat; [lra | apply PI_RGT_0]. }
  unfold Rdiv. apply Rmult_le_compat_l.
  - assert (HL : 0.1 <= Rmax 0.1 (target_length s)) by apply Rmax_l.
    assert (HB : 0.1 <= Rmax 0.1 (target_width s)) by apply Rmax_l.
    pose proof (Rabs_pos (sin (Py.radians (aspect_angle s)))).
    pose proof (Rabs_pos (cos (Py.radians (aspect_angle s)))).
    nra.
  - apply Rinv_le_contravar.
    + eapply Rlt_le_trans; [| apply Rmax_l]. lra.
    + apply Rle_max_compat_l. lra.
Qed.

Lemma angular_width_antitone_in_range_witness :
  calculate_angular_width (set_target_range 12 northbound)
  <= calculate_angular_width (set_target_range 5 northbound).
Proof.
  apply (angular_width_antitone_in_range northbound 5 12). lra.
Defined.

(** X17: with a positive range scale the brightness does not grow with
    the range: of two targets that differ only in range, the farther one
    is not brighter. *)
Theorem brightness_antitone_in_range (s : IKO) (r1 r2 : R) :
  0 < range_scale s ->
  r1 <= r2 ->
  exists v1 v2,
    calculate_target_brightness (set_target_range r1 s) = Some v1
    /\ calculate_target_brightness (set_target_range r2 s) = Some v2
    /\ v2 <= v1.
Proof.
  intros Hrs Hr. unfold calculate_target_brightness. fields.
  rewrite !div_defined by lra.
  do 2 eexists. split; [reflexivity |]. split; [reflexivity |].
  apply Rle_max_compat_l, Rle_min_compat_l, Rplus_le_compat_l.
  apply Rmult_le_compat_r; [lra |].
  apply Rmult_le_compat_l.
  - apply Rmult_le_pos; [| apply aspect_factor_nonneg].
    unfold Py.log10.
    assert (H1 : 0.01 <= Rmax 0.01 (target_epr s)) by apply Rmax_l.
    apply Rlt_le, Rdiv_lt_0_compat; [| apply ln_10_pos].
    rewrite <- ln_1. apply ln_increasing; lra.
  - apply Rle_max_compat_l.
    assert (Hq : r1 / range_scale s <= r2 / range_scale s).
    { unfold Rdiv. apply Rmult_le_compat_r; [| exact Hr].
      apply Rlt_le, Rinv_0_lt_compat, Hrs. }
    lra.
Qed.

Lemma brightness_antitone_in_range_witness :
  exists v1 v2,
    calculate_target_brightness (set_target_range 5 northbound) = Some v1
    /\ calculate_target_brightness (set_target_range 12 northbound)
       = Some v2
    /\ v2 <= v1.
Proof.
  apply (brightness_antitone_in_range northbound 5 12); cbn; lra.
Defined.

(** ** Handlers *)

Lemma handlers_keep {A} (f : IKO -> A) (tk : Toolkit) (value : R)
    (h : M unit) :
  (forall v s, f (set_target_bearing v s) = f s) ->
  (forall v s, f (set_target_range v s) = f s) ->
  (forall v s, f (set_target_length v s) = f s) ->
  (forall v s, f (set_target_width v s) = f s) ->
  (forall d s, f (set_target_history d s) = f s) ->
  (forall cs c p u s, f (redisplayed cs c p u s) = f s) ->
  In h [on_bearing_change tk value; on_range_change tk value;
        on_length_change tk value; on_width_change tk value;
        update_display tk; on_resize tk; on_root_configure tk] ->
  frames (keeps f) h.
Proof.
  intros Hb Hr Hl Hw Hh Hd Hin. cbn [In] in Hin.
  destruct Hin as [<- | [<- | [<- | [<- | [<- | [<- | [<- | []]]]]]]];
    unfold on_bearing_change, on_range_change, on_length_change,
      on_width_change, update_display, on_resize, on_root_configure;
    frame_steps (keeps_refl f) (keeps_trans f);
    try (apply add_to_history_keeps; assumption);
    try (apply draw_radar_display_keeps; assumption);
    unfold keeps; auto.
Qed.

Lemma draw_radar_display_trail_inv (tk : Toolkit) (n : nat) :
  frames (preserves (trail_inv n)) (draw_radar_display tk).
Proof.
  intros s.
  destruct (draw_radar_display_frame tk s)
    as (cs & c & p & u & [-> | [e ->]]); now apply trail_inv_apart.
Qed.

Lemma handlers_trail_inv (tk : Toolkit) (value : R) (n : nat) (h : M unit) :
  In h [on_bearing_change tk value; on_range_change tk value;
        on_length_change tk value; on_width_change tk value;
        update_display tk; on_resize tk; on_root_configure tk] ->
  frames (preserves (trail_inv n)) h.
Proof.
  intros Hin. cbn [In] in Hin.
  destruct Hin as [<- | [<- | [<- | [<- | [<- | [<- | [<- | []]]]]]]];
    unfold on_bearing_change, on_range_change, on_length_change,
      on_width_change, update_display, on_resize, on_root_configure;
    frame_steps (preserves_refl (trail_inv n))
                (preserves_trans (trail_inv n));
    try apply draw_radar_display_trail_inv;
    try (intros H; now apply add_to_history_inv);
    now apply trail_inv_apart.
Qed.

(** X18: the handlers of the bearing, range, length and width sliders
    and of a resize never start or stop the movement, schedule no tick,
    leave the status, the course and the speed alone, and keep the bound
    of the trail, whether they return or a toolkit call raises. *)
Theorem handlers_keep_movement (tk : Toolkit) (value : R) (n : nat)
    (h : M unit) (s : IKO) :
  In h [on_bearing_change tk value; on_range_change tk value;
        on_length_change tk value; on_width_change tk value;
        update_display tk; on_resize tk; on_root_configure tk] ->
  let s' := state_of (h s) in
  target_moving s' = target_moving s
  /\ root_after s' = root_after s
  /\ info_var s' = info_var s
  /\ target_course s' = target_course s
  /\ target_speed s' = target_speed s
  /\ (trail_inv n s -> trail_inv n s').
Proof.
  intros Hin s'. subst s'.
  assert (K : forall A (f : IKO -> A),
             (forall v s, f (set_target_bearing v s) = f s) ->
             (forall v s, f (set_target_range v s) = f s) ->
             (forall v s, f (set_target_length v s) = f s) ->
             (forall v s, f (set_target_width v s) = f s) ->
             (forall d s, f (set_target_history d s) = f s) ->
             (forall cs c p u s, f (redisplayed cs c p u s) = f s) ->
             f (state_of (h s)) = f s).
  { intros A f Hb Hr Hl Hw Hh Hd.
    apply (handlers_keep f tk value h Hb Hr Hl Hw Hh Hd Hin). }
  split; [apply (K _ target_moving); reflexivity |].
  split; [apply (K _ root_after); reflexivity |].
  split; [apply (K _ info_var); reflexivity |].
  split; [apply (K _ target_course); reflexivity |].
  split; [apply (K _ target_speed); reflexivity |].
  apply (handlers_trail_inv tk value n h Hin).
Qed.

Lemma handlers_keep_movement_witness :
  let s' := state_of (on_range_change quiet_toolkit 9 northbound) in
  target_moving s' = target_moving northbound
  /\ root_after s' = root_after northbound
  /\ info_var s' = info_var northbound
  /\ target_course s' = target_course northbound
  /\ target_speed s' = target_speed northbound
  /\ (trail_inv 30 northbound -> trail_inv 30 s').
Proof.
  apply (handlers_keep_movement quiet_toolkit 9 30
           (on_range_change quiet_toolkit 9) northbound).
  cbn [In]. right. left. reflexivity.
Defined.

(** X19: with a range scale of at least 2 miles, [new_coastline] installs
    the generated coastline (40 vertices, each range within the band)
    and the redraw that follows keeps it, together with the trail and
    the movement state, whether the redraw returns or raises. *)
Theorem new_coastline_installs (tk : Toolkit) (g : Random.state) (s : IKO) :
  2 <= range_scale s ->
  let s' := state_of (fst (new_coastline tk g s)) in
  coastline_points s' = fst (generate_coastline s g)
  /\ List.length (coastline_points s') = 40%nat
  /\ Forall (in_band s') (coastline_points s')
  /\ target_history s' = target_history s
  /\ target_moving s' = target_moving s
  /\ root_after s' = root_after s.
Proof.
  intros Hrs s'.
  destruct (generate_coastline_raw s g Hrs) as (points & Hgen & Hlen & Hband).
  destruct (smooth_coastline_shape s points Hband) as [Hlen' Hband'].
  unfold new_coastline in s'.
  destruct (generate_coastline s g) as [coast g'].
  cbn [fst] in s', Hgen. subst coast.
  assert (K : forall A (f : IKO -> A),
             (forall cs c p u s, f (redisplayed cs c p u s) = f s) ->
             f s' = f (set_coastline_points (smooth_coastline points) s)).
  { intros A f Hf. apply (draw_radar_display_keeps f tk Hf). }
  rewrite (K _ coastline_points (fun _ _ _ _ _ => eq_refl)).
  rewrite (K _ target_history (fun _ _ _ _ _ => eq_refl)).
  rewrite (K _ target_moving (fun _ _ _ _ _ => eq_refl)).
  rewrite (K _ root_after (fun _ _ _ _ _ => eq_refl)).
  cbn [coastline_points target_history target_moving root_after
       set_coastline_points].
  repeat split; try reflexivity.
  - rewrite Hlen'. exact Hlen.
  - eapply Forall_impl; [| exact Hband'].
    intros p Hp. unfold in_band in *.
    rewrite (K _ range_scale (fun _ _ _ _ _ => eq_refl)).
    exact Hp.
Qed.

Lemma new_coastline_installs_witness :
  let s' :=
    state_of (fst (new_coastline quiet_toolkit middle_draws northbound)) in
  coastline_points s' = fst (generate_coastline northbound middle_draws)
  /\ List.length (coastline_points s') = 40%nat
  /\ Forall (in_band s') (coastline_points s')
  /\ target_history s' = target_history northbound
  /\ target_moving s' = target_moving northbound
  /\ root_after s' = root_after northbound.
Proof.
  apply (new_coastline_installs quiet_toolkit middle_draws northbound).
  cbn. lra.
Defined.

(** ** A random target *)

(** X20: with a range scale of at least 5 miles and draws in [[0, 1]],
    the target that [random_target] draws has its bearing in
    [[0, 360]], its range in [[2, range_scale - 2]] (so inside the
    scope), its EPR in [[0.1, 10]], its length in [[5, 200]], its width
    in [[2, 50]] and its aspect angle in [[0, 90]]; six draws are
    taken. *)
Theorem random_target_inside_scope (s : IKO) (g : Random.state) :
  5 <= range_scale s ->
  (forall k : nat,
      (k < 6)%nat ->
      0 <= Random.stream g (Random.cursor g + k) <= 1) ->
  let s' := fst (random_target_draws s g) in
  0 <= target_bearing s' <= 360
  /\ 2 <= target_range s' <= range_scale s' - 2
  /\ 0.1 <= target_epr s' <= 10
  /\ 5 <= target_length s' <= 200
  /\ 2 <= target_width s' <= 50
  /\ 0 <= aspect_angle s' <= 90
  /\ snd (random_target_draws s g)
     = Random.mk (Random.stream g) (Random.cursor g + 6).
Proof.
  intros Hrs Hd s'. subst s'.
  pose proof (Hd 0%nat ltac:(lia)) as H0.
  pose proof (Hd 1%nat ltac:(lia)) as H1.
  pose proof (Hd 2%nat ltac:(lia)) as H2.
  pose proof (Hd 3%nat ltac:(lia)) as H3.
  pose proof (Hd 4%nat ltac:(lia)) as H4.
  pose proof (Hd 5%nat ltac:(lia)) as H5.
  clear Hd. destruct g as [st c].
  cbn [Random.stream Random.cursor] in *.
  replace (c + 0)%nat with c in H0 by lia.
  replace (c + 1)%nat with (S c) in H1 by lia.
  replace (c + 2)%nat with (S (S c)) in H2 by lia.
  replace (c + 3)%nat with (S (S (S c))) in H3 by lia.
  replace (c + 4)%nat with (S (S (S (S c)))) in H4 by lia.
  replace (c + 5)%nat with (S (S (S (S (S c))))) in H5 by lia.
  unfold random_target_draws, Random.uniform.
  unfold Random.bind, Random.random, Random.ret.
  cbv beta iota zeta.
  cbn [fst snd Random.stream Random.cursor
       target_bearing target_range target_epr target_length target_width
       aspect_angle range_scale
       set_target_bearing set_target_range set_target_epr
       set_target_length set_target_width set_aspect_angle].
  rewrite (Rmax_right 3 (range_scale s - 2)) by lra.
  repeat split; try lra; try nra.
  f_equal. lia.
Qed.

Lemma random_target_inside_scope_witness :
  let s' := fst (random_target_draws northbound middle_draws) in
  0 <= target_bearing s' <= 360
  /\ 2 <= target_range s' <= range_scale s' - 2
  /\ 0.1 <= target_epr s' <= 10
  /\ 5 <= target_length s' <= 200
  /\ 2 <= target_width s' <= 50
  /\ 0 <= aspect_angle s' <= 90
  /\ snd (random_target_draws northbound middle_draws)
     = Random.mk (Random.stream middle_draws)
         (Random.cursor middle_draws + 6).
Proof.
  apply (random_target_inside_scope northbound middle_draws).
  - cbn. lra.
  - intros k _. cbn. lra.
Defined.

(** ** Radar cross-section from dimensions *)

Lemma coefficient_bounds (key : string) :
  0 < EPRCalculator.get EPRCalculator.material_coefficients key 0.1 <= 1.
Proof.
  unfold EPRCalculator.material_coefficients. cbn [EPRCalculator.get].
  repeat match goal with
         | |- context [String.eqb ?k key] => destruct (String.eqb k key)
         end; lra.
Qed.

Lemma pow_two_thirds_cases (x : R) :
  (0 <= x ->
   exists b, EPRCalculator.pow_two_thirds x = Some b
             /\ 0 <= b /\ (x = 0 -> b = 0))
  /\ (x < 0 -> EPRCalculator.pow_two_thirds x = None).
Proof.
  unfold EPRCalculator.pow_two_thirds. split.
  - intros Hx. destruct (Rlt_dec 0 x) as [Hpos | Hnp].
    + exists (Rpower x (2 / 3)). split; [reflexivity |]. split.
      * unfold Rpower. left. apply exp_pos.
      * intros H0. lra.
    + destruct (Rlt_dec x 0) as [Hneg | _]; [lra |].
      exists 0. split; [reflexivity |]. split; [lra | reflexivity].
  - intros Hx. destruct (Rlt_dec 0 x) as [Hpos | _]; [lra |].
    destruct (Rlt_dec x 0) as [_ | Hn]; [reflexivity | lra].
Qed.

Lemma footprint_sign (length width height_above_water : R) :
  (0 <= length * width ->
   0 <= length * width * Rmax 0.1 height_above_water)
  /\ (length * width = 0 ->
      length * width * Rmax 0.1 height_above_water = 0)
  /\ (length * width < 0 ->
      length * width * Rmax 0.1 height_above_water < 0).
Proof.
  assert (H : 0.1 <= Rmax 0.1 height_above_water) by apply Rmax_l.
  repeat split; intros; nra.
Qed.

(** X21: [calculate_epr_from_dimensions] returns an EPR of at least
    0.001 when length and width have a non-negative product, exactly
    0.001 when the product is zero, and raises [TypeError] when the
    product is negative (the power is then complex and [max] cannot
    compare it), whatever the height, material and aspect angle. *)
Theorem epr_from_dimensions_cases (lower : string -> string)
    (length width height_above_water : R) (material : string)
    (aspect_angle : R) :
  let r :=
    EPRCalculator.calculate_epr_from_dimensions lower length width
      height_above_water material aspect_angle in
  (0 <= length * width -> exists v, r = inr v /\ 0.001 <= v)
  /\ (length * width = 0 -> r = inr 0.001)
  /\ (length * width < 0 -> r = inl EPRCalculator.complex_comparison).
Proof.
  intros r. subst r.
  unfold EPRCalculator.calculate_epr_from_dimensions.
  destruct (footprint_sign length width height_above_water)
    as (Hnn & Hz & Hneg).
  destruct (pow_two_thirds_cases
              (length * width * Rmax 0.1 height_above_water))
    as [Hdef Hcomplex].
  split; [| split].
  - intros H. destruct (Hdef (Hnn H)) as (b & -> & _ & _).
    eexists. split; [reflexivity | apply Rmax_r].
  - intros H.
    assert (H' : 0 <= length * width) by lra.
    destruct (Hdef (Hnn H')) as (b & -> & _ & Hb).
    rewrite (Hb (Hz H)). f_equal.
    rewrite Rmax_right; [reflexivity | lra].
  - intros H. rewrite (Hcomplex (Hneg H)). reflexivity.
Qed.

Lemma epr_from_dimensions_cases_witness :
  exists v,
    EPRCalculator.calculate_epr_from_dimensions (fun m => m) 30 7 4
      "сталь" 70 = inr v
    /\ 0.001 <= v.
Proof.
  apply (proj1 (epr_from_dimensions_cases (fun m => m) 30 7 4 "сталь" 70)).
  lra.
Defined.

(** X22: for dimensions with a non-negative product, the EPR at an
    aspect angle of 90 degrees (beam on) is the largest the target can
    have. *)
Theorem epr_beam_aspect_is_largest (lower : string -> string)
    (length width height_above_water : R) (material : string) (a : R) :
  0 <= length * width ->
  exists v v90,
    EPRCalculator.calculate_epr_from_dimensions lower length width
      height_above_water material a = inr v
    /\ EPRCalculator.calculate_epr_from_dimensions lower length width
         height_above_water material 90 = inr v90
    /\ v <= v90.
Proof.
  intros H.
  unfold EPRCalculator.calculate_epr_from_dimensions.
  destruct (footprint_sign length width height_above_water) as (Hnn & _ & _).
  destruct (pow_two_thirds_cases
              (length * width * Rmax 0.1 height_above_water))
    as [Hdef _].
  destruct (Hdef (Hnn H)) as (b & -> & Hb & _).
  pose proof (coefficient_bounds (lower material)) as Hm.
  set (m := EPRCalculator.get EPRCalculator.material_coefficients
              (lower material) 0.1) in *.
  do 2 eexists. split; [reflexivity |]. split; [reflexivity |].
  replace (Py.radians 90) with (PI / 2) by (unfold Py.radians; field).
  rewrite sin_PI2, Rabs_R1.
  apply Rle_max_compat_r.
  assert (Ha : 0 <= Rabs (sin (Py.radians a)) <= 1).
  { split; [apply Rabs_pos |].
    apply Rabs_le. apply SIN_bound. }
  assert (Hbm : 0 <= b * m) by (apply Rmult_le_pos; lra).
  nra.
Qed.

Lemma epr_beam_aspect_is_largest_witness :
  exists v v90,
    EPRCalculator.calculate_epr_from_dimensions (fun m => m) 30 7 4
      "сталь" 20 = inr v
    /\ EPRCalculator.calculate_epr_from_dimensions (fun m => m) 30 7 4
         "сталь" 90 = inr v90
    /\ v <= v90.
Proof.
  apply (epr_beam_aspect_is_largest (fun m => m) 30 7 4 "сталь" 20). lra.
Defined.

(** ** The drawing of the target, its trail and the grid *)

Lemma length_append (a b : string) :
  String.length (a ++ b) = (String.length a + String.length b)%nat.
Proof.
  induction a as [| c a IH]; cbn [append String.length plus];
    [reflexivity | now rewrite IH].
Qed.

Lemma format_02x_byte (v : Z) :
  (0 <= v <= 255)%Z -> String.length (format_02x v) = 2%nat.
Proof.
  intros Hv.
  assert (Hall :
            forallb
              (fun n => (String.length (format_02x (Z.of_nat n)) =? 2)%nat)
              (seq 0 256) = true)
    by (vm_compute; reflexivity).
  rewrite forallb_forall in Hall.
  specialize (Hall (Z.to_nat v)).
  rewrite Z2Nat.id in Hall by lia.
  apply Nat.eqb_eq, Hall, in_seq. lia.
Qed.

Lemma tk_colour_bytes (r g b : Z) :
  (0 <= r <= 255)%Z -> (0 <= g <= 255)%Z -> (0 <= b <= 255)%Z ->
  tk_colour ("#" ++ format_02x r ++ format_02x g ++ format_02x b).
Proof.
  intros Hr Hg Hb. split.
  - rewrite !length_append, !format_02x_byte by assumption. reflexivity.
  - exists r, g, b. repeat split; try lia.
Qed.

Lemma int_between (a b : Z) (x : R) :
  0 <= x -> IZR a <= x -> x <= IZR b -> (a <= Py.int x <= b)%Z.
Proof.
  intros H0 Ha Hb. unfold Py.int.
  destruct (Rle_dec 0 x) as [_ | Hn]; [| contradiction]. split.
  - apply Zfloor_lub, Ha.
  - apply le_IZR. eapply Rle_trans; [| exact Hb].
    apply Zfloor_bound.
Qed.

Lemma fraction_bounds (i d : Z) :
  (0 <= i <= d)%Z -> (1 <= d)%Z -> 0 <= IZR i / IZR d <= 1.
Proof.
  intros [Hi Hid] Hd.
  assert (H0 : 0 <= IZR i) by (apply IZR_le; lia).
  assert (H1 : IZR i <= IZR d) by (apply IZR_le; lia).
  assert (H2 : 1 <= IZR d) by (apply IZR_le; lia).
  split.
  - apply Rmult_le_pos; [exact H0 |].
    apply Rlt_le, Rinv_0_lt_compat. lra.
  - apply Rmult_le_reg_r with (IZR d); [lra |].
    unfold Rdiv. rewrite Rmult_assoc, Rinv_l by lra. lra.
Qed.

(** X23: with a non-zero range scale, [draw_current_target] draws two
    ovals, and a third when the EPR is above 2.0, all centred on the
    projected position of the target: a core of radius 3 to 7 pixels
    and halos 2 and 5 pixels wider; every colour it names is a
    well-formed [#rrggbb]. *)
Theorem current_target_mark (s : IKO) :
  range_scale s <> 0 ->
  exists (items : list CanvasItem) (core_r : Z),
    draw_current_target s = Some items
    /\ (3 <= core_r <= 7)%Z
    /\ map bbox items
       = map (square_around
                (polar_to_cartesian s (target_bearing s) (target_range s)))
             ([core_r; core_r + 2]
              ++ if Rgt_dec (target_epr s) 2.0 then [core_r + 2 + 3]
                 else [])%Z
    /\ Forall (fun it => Forall tk_colour (colours_of it)) items.
Proof.
  intros Hrs. unfold draw_current_target, calculate_target_brightness.
  rewrite (div_defined _ _ Hrs). cbv zeta.
  match goal with |- context [Py.int (3 + ?b * 4)] =>
    set (brightness := b) end.
  assert (Hb : 0.05 <= brightness <= 1.0)
    by (apply Rmax_Rmin_bounds; lra).
  assert (Hc : 0.15 <= Rmax 0.15 (Rmin 1.0 brightness) <= 1.0)
    by (apply Rmax_Rmin_bounds; lra).
  set (val := Py.int (255 * Rmax 0.15 (Rmin 1.0 brightness))).
  assert (Hval : (38 <= val <= 255)%Z) by (apply int_between; lra).
  assert (Hint : (3 <= Py.int (3 + brightness * 4) <= 7)%Z)
    by (apply int_between; lra).
  set (core_r := Z.max 3 (Py.int (3 + brightness * 4))).
  assert (Hcore : (3 <= core_r <= 7)%Z) by (unfold core_r; lia).
  clearbody core_r val.
  destruct (polar_to_cartesian s (target_bearing s) (target_range s))
    as [cx cy].
  assert (Hmain :
            tk_colour ("#" ++ format_02x val ++ format_02x val ++ "00"))
    by (apply (tk_colour_bytes val val 0); lia).
  assert (Hhalo :
            tk_colour ("#" ++ format_02x (Z.min 255 (val + 50))
                           ++ format_02x (Z.min 255 (val + 30)) ++ "00"))
    by (apply (tk_colour_bytes (Z.min 255 (val + 50))
                 (Z.min 255 (val + 30)) 0); lia).
  assert (Houter :
            tk_colour ("#" ++ format_02x (Z.min 255 (val + 20))
                           ++ format_02x (Z.min 255 (val + 10)) ++ "00"))
    by (apply (tk_colour_bytes (Z.min 255 (val + 20))
                 (Z.min 255 (val + 10)) 0); lia).
  destruct (Rgt_dec (target_epr s) 2.0) as [Hbig | Hsmall];
    eexists; exists core_r;
    (split; [reflexivity |]); (split; [exact Hcore |]);
    (split; [reflexivity |]);
    repeat (apply Forall_cons;
            [cbn [colours_of named append String.eqb Ascii.eqb Bool.eqb
                  app];
             repeat (apply Forall_cons; [assumption |]);
             apply Forall_nil |]);
    apply Forall_nil.
Qed.

Lemma current_target_mark_witness :
  exists (items : list CanvasItem) (core_r : Z),
    draw_current_target northbound = Some items
    /\ (3 <= core_r <= 7)%Z
    /\ map bbox items
       = map (square_around
                (polar_to_cartesian northbound (target_bearing northbound)
                   (target_range northbound)))
             ([core_r; core_r + 2]
              ++ if Rgt_dec (target_epr northbound) 2.0
                 then [core_r + 2 + 3] else [])%Z
    /\ Forall (fun it => Forall tk_colour (colours_of it)) items.
Proof.
  apply (current_target_mark northbound). cbn. lra.
Defined.

(** X24: with a trail length of 0 or 1 no trail is ever drawn, whatever
    fixes are recorded: [draw_target_trails] needs two fixes, and the
    trail never holds that many. *)
Theorem short_trail_is_not_drawn (n : nat) (s : IKO) (fs : list TargetFix) :
  trail_inv n s ->
  (n <= 1)%nat ->
  draw_target_trails (record_fixes fs s) = [].
Proof.
  intros Hinv Hn.
  destruct (record_fixes_inv n fs s Hinv) as (_ & Hlen & _).
  unfold Deque.len in Hlen. unfold draw_target_trails. cbv zeta.
  destruct (Nat.ltb_spec
              (List.length (Deque.items (target_history (record_fixes fs s))))
              2) as [_ | Hge]; [reflexivity | lia].
Qed.

Lemma short_trail_is_not_drawn_witness :
  draw_target_trails
    (record_fixes [(10, 5, 1); (20, 6, 1); (30, 7, 1)] single_fix_trail)
  = [].
Proof.
  apply (short_trail_is_not_drawn 1 single_fix_trail).
  - repeat split; cbn; lia.
  - lia.
Defined.

(** X25: a trail of [n >= 2] fixes is drawn as [n - 1] segments and [n]
    dots, and every colour that [draw_target_trails] names is a
    well-formed [#rrggbb], whatever the fixes are. *)
Theorem trail_drawing (s : IKO) :
  let n := Deque.len (target_history s) in
  (2 <= n)%nat ->
  List.length (draw_target_trails s) = (2 * n - 1)%nat
  /\ Forall (fun it => Forall tk_colour (colours_of it))
       (draw_target_trails s).
Proof.
  intros n Hn. subst n. unfold Deque.len in *.
  unfold draw_target_trails. cbv zeta.
  set (history := Deque.items (target_history s)) in *.
  set (n := List.length history) in *.
  destruct (Nat.ltb_spec n 2) as [Hlt | _]; [lia |].
  split.
  - rewrite length_app, !length_map, !length_seq. lia.
  - apply Forall_app. split; apply Forall_map, Forall_forall;
      intros i Hi; apply in_seq in Hi.
    + destruct (nth i history (0, 0, 0)) as [[bearing1 range1] epr1].
      destruct (nth (i + 1) history (0, 0, 0)) as [[bearing2 range2] epr2].
      destruct (polar_to_cartesian s bearing1 range1) as [x1 y1].
      destruct (polar_to_cartesian s bearing2 range2) as [x2 y2].
      assert (Ht : 0 <= IZR (Z.of_nat i) / IZR (Z.max 1 (Z.of_nat n - 2))
                   <= 1) by (apply fraction_bounds; lia).
      set (t := IZR (Z.of_nat i) / IZR (Z.max 1 (Z.of_nat n - 2))) in *.
      assert (Ha : (76 <= Py.int (255 * (0.3 + 0.7 * (1.0 - t))) <= 255)%Z)
        by (apply int_between; lra).
      cbn [colours_of named append String.eqb Ascii.eqb Bool.eqb app].
      constructor; [| constructor].
      apply (tk_colour_bytes 0 255); lia.
    + destruct (nth i history (0, 0, 0)) as [[bearing range_val] epr].
      destruct (polar_to_cartesian s bearing range_val) as [x y].
      assert (Ht : 0 <= IZR (Z.of_nat i) / IZR (Z.max 1 (Z.of_nat n - 1))
                   <= 1) by (apply fraction_bounds; lia).
      set (t := IZR (Z.of_nat i) / IZR (Z.max 1 (Z.of_nat n - 1))) in *.
      set (fade := 0.4 + 0.6 * (1.0 - t)) in *.
      assert (Hf : 0.4 <= fade <= 1) by (unfold fade; lra).
      assert (Hr : (100 <= Py.int (100 + 155 * (1 - fade)) <= 193)%Z)
        by (apply int_between; lra).
      assert (Hg : (222 <= Py.int (200 + 55 * fade) <= 255)%Z)
        by (apply int_between; lra).
      assert (Hb : (0 <= Py.int (50 * (1 - fade)) <= 30)%Z)
        by (apply int_between; lra).
      cbn [colours_of named append String.eqb Ascii.eqb Bool.eqb app].
      constructor; [| constructor].
      apply tk_colour_bytes; lia.
Qed.

Lemma trail_drawing_witness :
  List.length (draw_target_trails tracked)
  = (2 * Deque.len (target_history tracked) - 1)%nat
  /\ Forall (fun it => Forall tk_colour (colours_of it))
       (draw_target_trails tracked).
Proof.
  apply (trail_drawing tracked). cbn. lia.
Defined.

Lemma py_range_bounds (stop step i : Z) :
  (0 < step)%Z -> In i (py_range 0 stop step) -> (0 <= i < stop)%Z.
Proof.
  intros Hs Hin. unfold py_range in Hin.
  apply in_map_iff in Hin. destruct Hin as (k & <- & Hk).
  apply in_seq in Hk.
  set (q := ((stop - 0 + step - 1) / step)%Z) in *.
  assert (Hq : (Z.of_nat k < q)%Z) by lia.
  assert (Hqs : (step * q <= stop - 0 + step - 1)%Z)
    by (unfold q; apply Z.mul_div_le; lia).
  nia.
Qed.

(** X26: when [center] is half the canvas size, every ring of
    [draw_grid_background] lies on the canvas, and its colour is a
    well-formed [#rrggbb] grey between 12 and 80. *)
Theorem grid_rings_on_canvas (s : IKO) :
  center s = (canvas_size s / 2)%Z ->
  Forall (fun it => on_canvas s it /\ Forall tk_colour (colours_of it))
    (draw_grid_background s).
Proof.
  intros Hc. unfold draw_grid_background. cbv zeta.
  apply Forall_flat_map, Forall_forall. intros i Hi.
  apply py_range_bounds in Hi; [| lia].
  destruct (Z.leb_spec (i / 2) 0) as [_ | Hr]; [constructor |].
  constructor; [| constructor]. split.
  - unfold on_canvas. cbn [bbox]. rewrite Hc.
    set (w := canvas_size s) in *.
    assert (Hz : (0 <= w / 2 - i / 2 /\ w / 2 - i / 2 <= w
                  /\ 0 <= w / 2 + i / 2 /\ w / 2 + i / 2 <= w)%Z)
      by (Z.div_mod_to_equations; lia).
    destruct Hz as (Hz1 & Hz2 & Hz3 & Hz4).
    repeat split; apply IZR_le; assumption.
  - cbn [colours_of named append String.eqb Ascii.eqb Bool.eqb app].
    constructor; [| constructor].
    assert (Hq : (0 <= i / Z.max 1 (Z.max 20 (canvas_size s / 12)))%Z)
      by (apply Z.div_pos; lia).
    apply tk_colour_bytes; lia.
Qed.

Lemma grid_rings_on_canvas_witness :
  Forall
    (fun it => on_canvas northbound it /\ Forall tk_colour (colours_of it))
    (draw_grid_background northbound).
Proof.
  apply (grid_rings_on_canvas northbound). reflexivity.
Defined.

(** X27: when the target's mark is at least 40 pixels from each edge of
    a canvas at least 240 pixels wide, the cursor square, its diagonals
    and the rectangle of the target form all lie on the canvas: the
    form is put to the left of the target when it does not fit to the
    right. *)
Theorem cursor_and_form_on_canvas (s : IKO) :
  let p := polar_to_cartesian s (target_bearing s) (target_range s) in
  40 <= fst p <= IZR (canvas_size s) - 40 ->
  40 <= snd p <= IZR (canvas_size s) - 40 ->
  (240 <= canvas_size s)%Z ->
  Forall (on_canvas s) (draw_target_cursor s ++ [draw_target_form_box s]).
Proof.
  intros p Hx Hy Hw. subst p.
  unfold draw_target_cursor, draw_target_form_box. cbv zeta.
  destruct (polar_to_cartesian s (target_bearing s) (target_range s))
    as [cx cy].
  cbn [fst snd] in Hx, Hy.
  apply IZR_le in Hw.
  destruct (Rgt_dec (cx + 15 + 110) (IZR (canvas_size s))) as [Hflip | Hfit];
    cbn [app];
    repeat (apply Forall_cons; [unfold on_canvas; cbn [bbox]; lra |]);
    apply Forall_nil.
Qed.

Lemma cursor_and_form_on_canvas_witness :
  Forall (on_canvas northbound)
    (draw_target_cursor northbound ++ [draw_target_form_box northbound]).
Proof.
  apply (cursor_and_form_on_canvas northbound).
  - unfold polar_to_cartesian, northbound.
    cbn [fst center pixel_per_mile target_bearing target_range canvas_size].
    pose proof (COS_bound (Py.radians (90 - 0))) as [H1 H2]. lra.
  - unfold polar_to_cartesian, northbound.
    cbn [snd center pixel_per_mile target_bearing target_range canvas_size].
    pose proof (SIN_bound (Py.radians (90 - 0))) as [H1 H2]. lra.
  - cbn. lia.
Defined.
